(** * qtc-cppcheck: the checker scheduler and the help-text extraction

    A shallow embedding of [src/CppcheckRunner.cpp] and of
    [OptionsWidget::finished] from [src/OptionsWidget.cpp].

    Conventions of the embedding.
    - A [QString] is a [string]; its code units are read in the Latin-1
      range, where [QChar::toLatin1] and [toLocal8Bit] are the identity.
    - A [QStringList] is a [list string].
    - A C++ [int] is a [Z]; the one addition of the source whose range
      matters is written with its 32-bit wrap-around ([int_add]).
    - Every member function of [CppcheckRunner] is a computation in the
      monad [M]: it threads the object's fields and appends to a log of the
      effects the function performs on its collaborators (the process, the
      two temporary files, the message pane, the progress handle, the
      signals it emits). *)

From Stdlib Require Import String Ascii List ZArith Bool Lia DecimalString Sorted.
Import ListNotations.
Local Open Scope string_scope.
Local Open Scope Z_scope.
Local Open Scope list_scope.

(** ** The Qt string primitives the source calls *)

Module Qt.

Definition size (s : string) : Z := Z.of_nat (String.length s).

Definition isEmpty (s : string) : bool :=
  match s with EmptyString => true | String _ _ => false end.

(** [QChar::isSpace] on the Latin-1 range. *)
Definition isSpace (c : ascii) : bool :=
  let n := nat_of_ascii c in
  (Nat.eqb n 32 || (Nat.leb 9 n && Nat.leb n 13) || Nat.eqb n 133
   || Nat.eqb n 160)%bool.

Fixpoint trimLeft (s : string) : string :=
  match s with
  | String c s' => if isSpace c then trimLeft s' else s
  | EmptyString => EmptyString
  end.

(** Drops the white space at the end: a character is kept when it is not a
    space or when something is kept after it. *)
Fixpoint trimRight (s : string) : string :=
  match s with
  | EmptyString => EmptyString
  | String c s' =>
      match trimRight s' with
      | EmptyString => if isSpace c then EmptyString else String c EmptyString
      | t => String c t
      end
  end.

Definition trimmed (s : string) : string := trimRight (trimLeft s).

(** [QString::split (sep)] with the default [KeepEmptyParts]. *)
Fixpoint split (sep : ascii) (s : string) : list string :=
  match s with
  | EmptyString => [EmptyString]
  | String c s' =>
      if Ascii.eqb c sep then EmptyString :: split sep s'
      else match split sep s' with
           | h :: t => String c h :: t
           | [] => [String c EmptyString]
           end
  end.

(** [QString::split (sep, QString::SkipEmptyParts)]. *)
Definition splitSkipEmpty (sep : ascii) (s : string) : list string :=
  filter (fun p => negb (isEmpty p)) (split sep s).

Definition join (sep : string) (l : list string) : string :=
  String.concat sep l.

(** [QString::indexOf]: the position of the first occurrence, -1 if none. *)
Definition indexOf (s t : string) : Z :=
  match String.index 0 t s with
  | Some i => Z.of_nat i
  | None => -1
  end.

(** [QString::mid (position, n)], with the clamping of
    [QContainerImplHelper::mid]; [n = -1] is the default "to the end". *)
Definition mid (s : string) (position n : Z) : string :=
  let len := size s in
  if len <? position then EmptyString
  else if position <? 0 then
    if (n <? 0) || (len <=? n + position) then s
    else if n + position <=? 0 then EmptyString
    else String.substring 0 (Z.to_nat (n + position)) s
  else if (n <? 0) || (len - position <? n) then
    String.substring (Z.to_nat position) (Z.to_nat (len - position)) s
  else String.substring (Z.to_nat position) (Z.to_nat n) s.

(** [QString::at]: defined only for a valid index (an assertion guards it). *)
Definition at_ (s : string) (i : nat) : option ascii := String.get i s.

Definition startsWith (s p : string) : bool := String.prefix p s.

Definition isDigit (c : ascii) : bool :=
  let n := nat_of_ascii c in (Nat.leb 48 n && Nat.leb n 57)%bool.

Definition digitValue (c : ascii) : Z := Z.of_nat (nat_of_ascii c) - 48.

(** The value of a run of decimal digits, [None] when a character is not a
    digit or the run is empty. *)
Fixpoint digits (acc : Z) (s : string) : option Z :=
  match s with
  | EmptyString => Some acc
  | String c s' =>
      if isDigit c then digits (10 * acc + digitValue c) s' else None
  end.

Definition unsignedValue (s : string) : option Z :=
  match s with
  | EmptyString => None
  | _ => digits 0 s
  end.

Definition INT_MIN : Z := - 2147483648.
Definition INT_MAX : Z := 2147483647.

(** [QString::toInt ()] in base 10: white space around the number is
    ignored, a sign is accepted, and the result is 0 when the text is not a
    number or does not fit an [int]. *)
Definition toInt (s : string) : Z :=
  let t := trimmed s in
  let v :=
    match t with
    | String "-"%char r => option_map Z.opp (unsignedValue r)
    | String "+"%char r => unsignedValue r
    | _ => unsignedValue t
    end in
  match v with
  | Some z => if (INT_MIN <=? z) && (z <=? INT_MAX) then z else 0
  | None => 0
  end.

(** [QStringList::removeDuplicates]: the first occurrence of each string is
    kept, in place. *)
Fixpoint removeDuplicatesFrom (seen l : list string) : list string :=
  match l with
  | [] => []
  | x :: l' =>
      if existsb (String.eqb x) seen then removeDuplicatesFrom seen l'
      else x :: removeDuplicatesFrom (x :: seen) l'
  end.

Definition removeDuplicates (l : list string) : list string :=
  removeDuplicatesFrom [] l.

(** [QStringList::sort ()]: ascending, case sensitive, by code unit. *)
Fixpoint insertSorted (x : string) (l : list string) : list string :=
  match l with
  | [] => [x]
  | y :: l' => if String.leb x y then x :: l else y :: insertSorted x l'
  end.

Definition sort (l : list string) : list string :=
  fold_right insertSorted [] l.

Definition listIsEmpty (l : list string) : bool :=
  match l with [] => true | _ :: _ => false end.

Definition contains (l : list string) (x : string) : bool :=
  existsb (String.eqb x) l.

Fixpoint stringListEqb (a b : list string) : bool :=
  match a, b with
  | [], [] => true
  | x :: a', y :: b' => String.eqb x y && stringListEqb a' b'
  | _, _ => false
  end.

(** [QDir::fromNativeSeparators]: on Windows every backslash becomes a
    slash; elsewhere the native separator is the slash already and the path
    is returned as it is. *)
Fixpoint backslashesToSlashes (s : string) : string :=
  match s with
  | EmptyString => EmptyString
  | String c s' =>
      String (if Ascii.eqb c "\"%char then "/"%char else c)
             (backslashesToSlashes s')
  end.

(** [QString::number] of an [int], in base 10. *)
Definition number (z : Z) : string := NilZero.string_of_int (Z.to_int z).

(** [QByteArray::replace ("\n", "")]. *)
Fixpoint removeNewlines (s : string) : string :=
  match s with
  | EmptyString => EmptyString
  | String c s' =>
      if Ascii.eqb c (ascii_of_nat 10) then removeNewlines s'
      else String c (removeNewlines s')
  end.

Definition fromNativeSeparators (windows : bool) (s : string) : string :=
  if windows then backslashesToSlashes s else s.

(** [QString::endsWith]. *)
Definition endsWith (s suffix : string) : bool :=
  (String.length suffix <=? String.length s)%nat
  && String.eqb
       (String.substring (String.length s - String.length suffix)
                         (String.length suffix) s)
       suffix.

(** The backward scan of [QString::lastIndexOf] for one character: the
    greatest position not above [n] that holds [c], -1 when there is none. *)
Fixpoint scanBack (s : string) (c : ascii) (n : nat) : Z :=
  if match String.get n s with
     | Some x => Ascii.eqb x c
     | None => false
     end
  then Z.of_nat n
  else match n with
       | O => -1
       | S n' => scanBack s c n'
       end.

(** [QString::lastIndexOf] of a text of one character, searching backwards
    from position [from]; a negative [from] counts from the end, and a
    start outside the string finds nothing. *)
Definition lastIndexOfChar (s : string) (c : ascii) (from : Z) : Z :=
  let len := size s in
  let from' := if from <? 0 then from + len else from in
  if (from' <? 0) || (len <=? from') then -1
  else scanBack s c (Z.to_nat from').

End Qt.

(** ** Collaborators of the runner *)

(** The fields of [Settings] the runner reads.  The object is shared with
    the options page, so every member function that reads it takes the
    settings as they are at the time of the call. *)
Record Settings := {
  binaryFile : string;
  customParameters : string;
  checkUnused : bool;
  checkInconclusive : bool;
  ignoreIncludePaths : bool;
  showBinaryOutput : bool;
  showId : bool
}.

(** What the host answers during one call: the macro expander, the number
    of cores, whether each temporary file can be opened and under which
    name, the platform of [QDir], and the build of the plugin: whether the
    assertions of Qt ([Q_ASSERT]) are compiled in or compiled out
    ([QT_NO_DEBUG]). *)
Record Host := {
  expand : string -> string;
  idealThreadCount : Z;
  fileListOpens : bool;
  includeListOpens : bool;
  fileListName : string;
  includeListName : string;
  windows : bool;
  assertions : bool
}.

Inductive MessageFlag := Silent | WithFocus.

Inductive ScratchFile := FileListFile | IncludeListFile.

Inductive ProcessError :=
  FailedToStart | Crashed | Timedout | WriteError | ReadError | UnknownError.

Inductive Channel := StandardOutput | StandardError.

(** The calls the runner makes on its collaborators, in program order. *)
Inductive Effect :=
| MessageWrite (text : string) (flag : MessageFlag)
| StartedChecking (files : list string)
| NewTask (type : ascii) (id description file : string) (lineNumber : Z)
| ProcessStart (binary : string) (arguments : list string)
| ProcessStartWhileRunning
| ProcessKill
| ProcessClose
| SingleShot (ms : Z)
| FileResize (f : ScratchFile) (newSize : Z)
| FileOpen (f : ScratchFile) (ok : bool)
| FileWrite (f : ScratchFile) (data : string)
| FileClose (f : ScratchFile)
| ProgressStarted
| ProgressFinished
| IndexOutOfRange (what : string)
| SetReadChannel (channel : Channel).

(** A [QTemporaryFile]: its name (empty until it is first opened) and what
    it holds. *)
Record TempFile := {
  fileName : string;
  contents : string
}.

(** ** The state of a [CppcheckRunner] *)

Record Runner := {
  showOutput_ : bool;
  showId_ : bool;
  runArguments_ : list string;
  includePaths_ : list string;
  fileCheckQueue_ : list string;
  currentlyCheckingFiles_ : list string;
  fileListFileContents_ : list string;
  fileListFile_ : TempFile;
  includeListFile_ : TempFile;
  maxArgumentsLength_ : Z;
  (** [process_.isOpen ()] *)
  processOpen : bool;
  (** [process_.state () != QProcess::NotRunning] *)
  processRunning : bool;
  (** [queueTimer_.isActive ()]; the source arms its timer through the
      static [singleShot], which never starts [queueTimer_] itself *)
  queueTimerActive : bool;
  (** [futureInterface_ != NULL] *)
  futureInterface_ : bool
}.

Definition set_showOutput (v : bool) (r : Runner) : Runner :=
  {| showOutput_ := v; showId_ := showId_ r; runArguments_ := runArguments_ r;
     includePaths_ := includePaths_ r; fileCheckQueue_ := fileCheckQueue_ r;
     currentlyCheckingFiles_ := currentlyCheckingFiles_ r;
     fileListFileContents_ := fileListFileContents_ r;
     fileListFile_ := fileListFile_ r; includeListFile_ := includeListFile_ r;
     maxArgumentsLength_ := maxArgumentsLength_ r;
     processOpen := processOpen r; processRunning := processRunning r;
     queueTimerActive := queueTimerActive r;
     futureInterface_ := futureInterface_ r |}.

Definition set_showId (v : bool) (r : Runner) : Runner :=
  {| showOutput_ := showOutput_ r; showId_ := v; runArguments_ := runArguments_ r;
     includePaths_ := includePaths_ r; fileCheckQueue_ := fileCheckQueue_ r;
     currentlyCheckingFiles_ := currentlyCheckingFiles_ r;
     fileListFileContents_ := fileListFileContents_ r;
     fileListFile_ := fileListFile_ r; includeListFile_ := includeListFile_ r;
     maxArgumentsLength_ := maxArgumentsLength_ r;
     processOpen := processOpen r; processRunning := processRunning r;
     queueTimerActive := queueTimerActive r;
     futureInterface_ := futureInterface_ r |}.

Definition set_runArguments (v : list string) (r : Runner) : Runner :=
  {| showOutput_ := showOutput_ r; showId_ := showId_ r; runArguments_ := v;
     includePaths_ := includePaths_ r; fileCheckQueue_ := fileCheckQueue_ r;
     currentlyCheckingFiles_ := currentlyCheckingFiles_ r;
     fileListFileContents_ := fileListFileContents_ r;
     fileListFile_ := fileListFile_ r; includeListFile_ := includeListFile_ r;
     maxArgumentsLength_ := maxArgumentsLength_ r;
     processOpen := processOpen r; processRunning := processRunning r;
     queueTimerActive := queueTimerActive r;
     futureInterface_ := futureInterface_ r |}.

Definition set_includePaths (v : list string) (r : Runner) : Runner :=
  {| showOutput_ := showOutput_ r; showId_ := showId_ r;
     runArguments_ := runArguments_ r;
     includePaths_ := v; fileCheckQueue_ := fileCheckQueue_ r;
     currentlyCheckingFiles_ := currentlyCheckingFiles_ r;
     fileListFileContents_ := fileListFileContents_ r;
     fileListFile_ := fileListFile_ r; includeListFile_ := includeListFile_ r;
     maxArgumentsLength_ := maxArgumentsLength_ r;
     processOpen := processOpen r; processRunning := processRunning r;
     queueTimerActive := queueTimerActive r;
     futureInterface_ := futureInterface_ r |}.

Definition set_fileCheckQueue (v : list string) (r : Runner) : Runner :=
  {| showOutput_ := showOutput_ r; showId_ := showId_ r;
     runArguments_ := runArguments_ r;
     includePaths_ := includePaths_ r; fileCheckQueue_ := v;
     currentlyCheckingFiles_ := currentlyCheckingFiles_ r;
     fileListFileContents_ := fileListFileContents_ r;
     fileListFile_ := fileListFile_ r; includeListFile_ := includeListFile_ r;
     maxArgumentsLength_ := maxArgumentsLength_ r;
     processOpen := processOpen r; processRunning := processRunning r;
     queueTimerActive := queueTimerActive r;
     futureInterface_ := futureInterface_ r |}.

Definition set_currentlyCheckingFiles (v : list string) (r : Runner) : Runner :=
  {| showOutput_ := showOutput_ r; showId_ := showId_ r;
     runArguments_ := runArguments_ r;
     includePaths_ := includePaths_ r; fileCheckQueue_ := fileCheckQueue_ r;
     currentlyCheckingFiles_ := v;
     fileListFileContents_ := fileListFileContents_ r;
     fileListFile_ := fileListFile_ r; includeListFile_ := includeListFile_ r;
     maxArgumentsLength_ := maxArgumentsLength_ r;
     processOpen := processOpen r; processRunning := processRunning r;
     queueTimerActive := queueTimerActive r;
     futureInterface_ := futureInterface_ r |}.

Definition set_fileListFileContents (v : list string) (r : Runner) : Runner :=
  {| showOutput_ := showOutput_ r; showId_ := showId_ r;
     runArguments_ := runArguments_ r;
     includePaths_ := includePaths_ r; fileCheckQueue_ := fileCheckQueue_ r;
     currentlyCheckingFiles_ := currentlyCheckingFiles_ r;
     fileListFileContents_ := v;
     fileListFile_ := fileListFile_ r; includeListFile_ := includeListFile_ r;
     maxArgumentsLength_ := maxArgumentsLength_ r;
     processOpen := processOpen r; processRunning := processRunning r;
     queueTimerActive := queueTimerActive r;
     futureInterface_ := futureInterface_ r |}.

Definition scratch (f : ScratchFile) (r : Runner) : TempFile :=
  match f with
  | FileListFile => fileListFile_ r
  | IncludeListFile => includeListFile_ r
  end.

Definition set_scratch (f : ScratchFile) (v : TempFile) (r : Runner) : Runner :=
  {| showOutput_ := showOutput_ r; showId_ := showId_ r;
     runArguments_ := runArguments_ r;
     includePaths_ := includePaths_ r; fileCheckQueue_ := fileCheckQueue_ r;
     currentlyCheckingFiles_ := currentlyCheckingFiles_ r;
     fileListFileContents_ := fileListFileContents_ r;
     fileListFile_ :=
       match f with FileListFile => v | IncludeListFile => fileListFile_ r end;
     includeListFile_ :=
       match f with FileListFile => includeListFile_ r | IncludeListFile => v end;
     maxArgumentsLength_ := maxArgumentsLength_ r;
     processOpen := processOpen r; processRunning := processRunning r;
     queueTimerActive := queueTimerActive r;
     futureInterface_ := futureInterface_ r |}.

Definition set_process (open running : bool) (r : Runner) : Runner :=
  {| showOutput_ := showOutput_ r; showId_ := showId_ r;
     runArguments_ := runArguments_ r;
     includePaths_ := includePaths_ r; fileCheckQueue_ := fileCheckQueue_ r;
     currentlyCheckingFiles_ := currentlyCheckingFiles_ r;
     fileListFileContents_ := fileListFileContents_ r;
     fileListFile_ := fileListFile_ r; includeListFile_ := includeListFile_ r;
     maxArgumentsLength_ := maxArgumentsLength_ r;
     processOpen := open; processRunning := running;
     queueTimerActive := queueTimerActive r;
     futureInterface_ := futureInterface_ r |}.

Definition set_futureInterface (v : bool) (r : Runner) : Runner :=
  {| showOutput_ := showOutput_ r; showId_ := showId_ r;
     runArguments_ := runArguments_ r;
     includePaths_ := includePaths_ r; fileCheckQueue_ := fileCheckQueue_ r;
     currentlyCheckingFiles_ := currentlyCheckingFiles_ r;
     fileListFileContents_ := fileListFileContents_ r;
     fileListFile_ := fileListFile_ r; includeListFile_ := includeListFile_ r;
     maxArgumentsLength_ := maxArgumentsLength_ r;
     processOpen := processOpen r; processRunning := processRunning r;
     queueTimerActive := queueTimerActive r;
     futureInterface_ := v |}.

(** ** The monad of member functions: state and a log of effects *)

Definition M (A : Type) : Type := Runner -> A * Runner * list Effect.

Definition ret {A} (a : A) : M A := fun r => (a, r, []).

Definition bind {A B} (m : M A) (k : A -> M B) : M B :=
  fun r =>
    let '(a, r1, l1) := m r in
    let '(b, r2, l2) := k a r1 in
    (b, r2, l1 ++ l2).

Definition get : M Runner := fun r => (r, r, []).
Definition modify (f : Runner -> Runner) : M unit := fun r => (tt, f r, []).
Definition emit (e : Effect) : M unit := fun r => (tt, r, [e]).
Definition when (b : bool) (m : M unit) : M unit := if b then m else ret tt.

Declare Scope runner_scope.
Delimit Scope runner_scope with runner.
Notation "x <- m ;; k" := (bind m (fun x => k))
  (at level 61, m at next level, right associativity) : runner_scope.
Notation "m ;; k" := (bind m (fun _ => k))
  (at level 61, right associativity) : runner_scope.
Local Open Scope runner_scope.

Definition stateOf {A} (x : A * Runner * list Effect) : Runner := snd (fst x).
Definition logOf {A} (x : A * Runner * list Effect) : list Effect := snd x.

(** ** Arithmetic of [int] *)

Definition wrap32 (z : Z) : Z := (z + 2 ^ 31) mod 2 ^ 32 - 2 ^ 31.

Definition int_add (a b : Z) : Z := wrap32 (a + b).

(** ** The process and the temporary files, as the runner drives them *)

(** [process_.start]: a [QProcess] that is still running refuses a second
    start with a warning; otherwise the device is opened and the program is
    launched. *)
Definition processStart (binary : string) (arguments : list string) : M unit :=
  r <- get ;;
  if processRunning r then emit ProcessStartWhileRunning
  else modify (set_process true true) ;; emit (ProcessStart binary arguments).

(** [process_.kill]: the request is asynchronous, the process reports its
    end later through the [finished] signal. *)
Definition processKill : M unit := emit ProcessKill.

Definition processClose : M unit :=
  modify (set_process false false) ;; emit ProcessClose.

Definition fileResize (f : ScratchFile) : M unit :=
  r <- get ;;
  modify (set_scratch f {| fileName := fileName (scratch f r);
                           contents := EmptyString |}) ;;
  emit (FileResize f 0).

Definition opens (host : Host) (f : ScratchFile) : bool :=
  match f with
  | FileListFile => fileListOpens host
  | IncludeListFile => includeListOpens host
  end.

Definition nameFor (host : Host) (f : ScratchFile) : string :=
  match f with
  | FileListFile => fileListName host
  | IncludeListFile => includeListName host
  end.

(** [QTemporaryFile::open]: a file that opens for the first time gets its
    name. *)
Definition fileOpen (host : Host) (f : ScratchFile) : M bool :=
  r <- get ;;
  let ok := opens host f in
  when ok
    (modify (set_scratch f
       {| fileName := if Qt.isEmpty (fileName (scratch f r))
                      then nameFor host f else fileName (scratch f r);
          contents := contents (scratch f r) |})) ;;
  emit (FileOpen f ok) ;;
  ret ok.

Definition fileWrite (f : ScratchFile) (data : string) : M unit :=
  r <- get ;;
  modify (set_scratch f {| fileName := fileName (scratch f r);
                           contents := (contents (scratch f r) ++ data)%string |}) ;;
  emit (FileWrite f data).

Definition fileClose (f : ScratchFile) : M unit := emit (FileClose f).

(** ** The member functions of [CppcheckRunner] *)

(** The constructor; [argMax] is the output of [getconf ARG_MAX] on Linux
    and [None] on the other platforms. *)
Definition newRunner (argMax : option string) : Runner :=
  {| showOutput_ := false; showId_ := false; runArguments_ := [];
     includePaths_ := []; fileCheckQueue_ := [];
     currentlyCheckingFiles_ := []; fileListFileContents_ := [];
     fileListFile_ := {| fileName := EmptyString; contents := EmptyString |};
     includeListFile_ := {| fileName := EmptyString; contents := EmptyString |};
     maxArgumentsLength_ :=
       match argMax with
       | Some out => Z.max (Qt.toInt (Qt.removeNewlines out)) 32000
       | None => 32767
       end;
     processOpen := false; processRunning := false;
     queueTimerActive := false;
     futureInterface_ := false |}.

(** The loop of [updateSettings] that looks, from the end, for an argument
    starting with [--enable] and takes it out of the list. *)
Fixpoint takeLastStartingWith (p : string) (l : list string)
  : option (string * list string) :=
  match l with
  | [] => None
  | x :: l' =>
      match takeLastStartingWith p l' with
      | Some (e, rest) => Some (e, x :: rest)
      | None => if Qt.startsWith x p then Some (x, l') else None
      end
  end.

Definition updateSettings (settings : Settings) (host : Host) : M unit :=
  modify (set_showOutput (showBinaryOutput settings)) ;;
  modify (set_showId (showId settings)) ;;
  modify (set_runArguments []) ;;
  r <- get ;;
  let enabled0 :=
    "--enable=warning,style,performance,portability,information,missingInclude" in
  let '(enabled1, args1) :=
    match takeLastStartingWith "--enable" (runArguments_ r) with
    | Some (e, rest) => (e, rest)
    | None => (enabled0, runArguments_ r)
    end in
  let '(enabled2, args2) :=
    if checkUnused settings
    then ((enabled1 ++ ",unusedFunction")%string, args1)
    else (enabled1,
          args1 ++ [("-j " ++ Qt.number (idealThreadCount host))%string]) in
  let args3 := args2 ++ [enabled2] in
  let args4 :=
    if checkInconclusive settings then args3 ++ ["--inconclusive"] else args3 in
  modify (set_runArguments
            (args4 ++ ["--template={file},{line},{severity},{id},{message}"])).

(** [setIncludePaths]: the list is cleared, then one flag is appended for
    each path. *)
Definition setIncludePaths (paths : list string) : M unit :=
  modify (set_includePaths []) ;;
  fold_left
    (fun (m : M unit) (i : string) =>
       m ;;
       r <- get ;;
       modify (set_includePaths (includePaths_ r ++ [("-I" ++ i)%string])))
    paths (ret tt).

(** [checkFiles]; the assertion on the argument is its precondition. *)
Definition checkFiles (fileNames : list string) : M unit :=
  r0 <- get ;;
  modify (set_fileCheckQueue (fileCheckQueue_ r0 ++ fileNames)) ;;
  r1 <- get ;;
  modify (set_fileCheckQueue (Qt.removeDuplicates (fileCheckQueue_ r1))) ;;
  r2 <- get ;;
  modify (set_fileCheckQueue (Qt.sort (fileCheckQueue_ r2))) ;;
  r <- get ;;
  if processOpen r then
    when (Qt.stringListEqb (fileCheckQueue_ r) (currentlyCheckingFiles_ r))
      processKill
  else
    when (negb (queueTimerActive r)) (emit (SingleShot 200)).

Definition stopChecking : M unit :=
  modify (set_fileCheckQueue []) ;;
  r <- get ;;
  when (processOpen r) processKill.

(** The separator of the lines of the two temporary files. *)
Definition newline : string := String (ascii_of_nat 10) EmptyString.

(** The tail of [checkQueuedFiles]: the signal, the log line and the start
    of the process. *)
Definition launch (binary : string) (arguments : list string) : M unit :=
  r <- get ;;
  emit (StartedChecking (currentlyCheckingFiles_ r)) ;;
  when (showOutput_ r)
    (emit (MessageWrite
             ("Starting CppChecker with:" ++ binary ++ ", "
              ++ Qt.join " " arguments)%string WithFocus)) ;;
  processStart binary arguments.

(** The sum the source compares with [maxArgumentsLength_]. *)
Definition serializedLength (arguments includes files : list string) : Z :=
  int_add (int_add (Qt.size (Qt.join " " arguments))
                   (Qt.size (Qt.join " " includes)))
          (Qt.size (Qt.join " " files)).

Definition checkQueuedFiles (settings : Settings) (host : Host) : M unit :=
  r0 <- get ;;
  if Qt.listIsEmpty (fileCheckQueue_ r0) then ret tt else
  let binary := binaryFile settings in
  if Qt.isEmpty binary then ret tt else
  let expanded := expand host (customParameters settings) in
  let arguments := Qt.splitSkipEmpty " " expanded ++ runArguments_ r0 in
  let includes :=
    if negb (ignoreIncludePaths settings) then includePaths_ r0 else [] in
  modify (set_currentlyCheckingFiles (fileCheckQueue_ r0)) ;;
  modify (set_fileCheckQueue []) ;;
  r1 <- get ;;
  if maxArgumentsLength_ r1
     <=? serializedLength arguments includes (currentlyCheckingFiles_ r1)
  then
    written <-
      (if negb (Qt.stringListEqb (fileListFileContents_ r1)
                                 (currentlyCheckingFiles_ r1))
       then
         modify (set_fileListFileContents (currentlyCheckingFiles_ r1)) ;;
         fileResize FileListFile ;;
         fileResize IncludeListFile ;;
         ok1 <- fileOpen host FileListFile ;;
         ok2 <- (if ok1 then fileOpen host IncludeListFile else ret false) ;;
         if ok2 then
           r2 <- get ;;
           fileWrite FileListFile
             (Qt.join newline (fileListFileContents_ r2)) ;;
           fileClose FileListFile ;;
           fileWrite IncludeListFile
             (Qt.join newline (map (fun i => Qt.mid i 2 (-1)) includes)) ;;
           fileClose IncludeListFile ;;
           ret true
         else
           emit (MessageWrite "Failed to write cppcheck's argument files"
                              Silent) ;;
           ret false
       else ret true) ;;
    if written then
      r3 <- get ;;
      launch binary
        (arguments
         ++ [("--file-list=" ++ fileName (fileListFile_ r3))%string;
             ("--includes-file=" ++ fileName (includeListFile_ r3))%string])
    else ret tt
  else
    launch binary (arguments ++ currentlyCheckingFiles_ r1 ++ includes).

(** The fields of the record of one line of the error stream. *)
Definition ErrorFieldFile : nat := 0.
Definition ErrorFieldLine : nat := 1.
Definition ErrorFieldSeverity : nat := 2.
Definition ErrorFieldId : nat := 3.
Definition ErrorFieldMessage : nat := 4.

(** What the body of the loop of [readError] does with one trimmed,
    non-empty line: it skips the line, emits [newTask], or indexes an empty
    severity field out of range.  [QString::at] forbids that by an
    assertion; [OutOfRange] carries the rest of the finding, which the
    source goes on to compute when the assertion is compiled out. *)
Inductive LineResult :=
| Discarded
| Finding (type : ascii) (id description file : string) (lineNumber : Z)
| OutOfRange (id description file : string) (lineNumber : Z).

Definition parseErrorLine (onWindows showId__ : bool) (line : string)
  : LineResult :=
  let details := Qt.split "," line in
  if (length details <=? ErrorFieldMessage)%nat then Discarded else
  let file :=
    Qt.fromNativeSeparators onWindows (nth ErrorFieldFile details EmptyString) in
  let lineNumber := Qt.toInt (nth ErrorFieldLine details EmptyString) in
  let id := if showId__ then nth ErrorFieldId details EmptyString
            else EmptyString in
  let description :=
    Qt.mid line
      (Qt.indexOf line (nth ErrorFieldMessage details EmptyString)) (-1) in
  match Qt.at_ (nth ErrorFieldSeverity details EmptyString) 0 with
  | None => OutOfRange id description file lineNumber
  | Some type => Finding type id description file lineNumber
  end.

(** The loop of [readError] over the lines [readLine] returns from the
    error channel, in their order.  On a record with an empty severity
    field a build with assertions stops at the failed assertion of
    [QString::at]; a build without them reads the terminating null of the
    empty string, emits the finding with the severity 0 and goes on. *)
Fixpoint readError (host : Host) (rawLines : list string) : M unit :=
  match rawLines with
  | [] => ret tt
  | rawLine :: rest =>
      let line := Qt.trimmed rawLine in
      if Qt.isEmpty line then readError host rest else
      r <- get ;;
      when (showOutput_ r) (emit (MessageWrite line Silent)) ;;
      match parseErrorLine (windows host) (showId_ r) line with
      | Discarded => readError host rest
      | Finding type id description file lineNumber =>
          emit (NewTask type id description file lineNumber) ;;
          readError host rest
      | OutOfRange id description file lineNumber =>
          if assertions host then emit (IndexOutOfRange "QString::at")
          else
            emit (NewTask Ascii.zero id description file lineNumber) ;;
            readError host rest
      end
  end.

Definition started : M unit :=
  r <- get ;;
  when (showOutput_ r) (emit (MessageWrite "Cppcheck started" Silent)) ;;
  modify (set_futureInterface true) ;;
  emit ProgressStarted.

Definition finished (exitCode : Z) : M unit :=
  r <- get ;;
  when (futureInterface_ r) (emit ProgressFinished) ;;
  processClose ;;
  when (showOutput_ r) (emit (MessageWrite "Cppcheck finished" Silent)).

Definition error (e : ProcessError) : M unit :=
  r <- get ;;
  when (showOutput_ r) (emit (MessageWrite "Cppcheck error occured" Silent)) ;;
  match e with
  | FailedToStart => finished (-1)
  | _ => ret tt
  end.

(** ** The signals, as the constructor connects them *)

(** [QProcess::finished]: the process is no longer running; the two slots
    run in the order of their connection. *)
Definition onFinished (exitCode : Z) (settings : Settings) (host : Host)
  : M unit :=
  r <- get ;;
  modify (set_process (processOpen r) false) ;;
  finished exitCode ;;
  checkQueuedFiles settings host.

(** [QProcess::errorOccurred]; a process that failed to start is not
    running and sends no [finished] signal. *)
Definition onErrorOccurred (e : ProcessError) : M unit :=
  r <- get ;;
  match e with
  | FailedToStart => modify (set_process (processOpen r) false)
  | _ => ret tt
  end ;;
  error e.

(** [QProcess::readyReadStandardError]: the slot [readError] selects the
    error channel of the process and runs its loop over the lines that can
    be read. *)
Definition onReadyReadStandardError (host : Host) (rawLines : list string)
  : M unit :=
  emit (SetReadChannel StandardError) ;;
  readError host rawLines.

(** The single-shot timer armed by [checkFiles]. *)
Definition onTimeout (settings : Settings) (host : Host) : M unit :=
  checkQueuedFiles settings host.

(** ** [OptionsWidget::finished] *)

Module OptionsWidget.

Definition helpArg : string := "--help".

(** The text set on the editor that is shown, [None] when the function
    returns without showing one. *)
Definition finished (processArguments_ : list string) (output : string)
  : option string :=
  let outputString := Qt.trimmed output in
  if Qt.contains processArguments_ helpArg then
    let startIndex := Qt.indexOf outputString "Options:" in
    let endIndex := Qt.indexOf outputString "Example usage:" in
    if endIndex <=? startIndex then None
    else Some (Qt.mid outputString startIndex (endIndex - startIndex))
  else None.

End OptionsWidget.

(** * Properties *)

(** ** Observations on a log *)

Definition isStart (e : Effect) : bool :=
  match e with ProcessStart _ _ => true | _ => false end.

Definition isStartedChecking (e : Effect) : bool :=
  match e with StartedChecking _ => true | _ => false end.

(** The runs a log starts: the processes launched and the file sets
    announced by [startedChecking]. *)
Definition starts (l : list Effect) : list Effect := filter isStart l.
Definition announced (l : list Effect) : list Effect :=
  filter isStartedChecking l.

Definition touches (f : ScratchFile) (e : Effect) : bool :=
  match e, f with
  | FileResize FileListFile _, FileListFile
  | FileOpen FileListFile _, FileListFile
  | FileWrite FileListFile _, FileListFile
  | FileClose FileListFile, FileListFile
  | FileResize IncludeListFile _, IncludeListFile
  | FileOpen IncludeListFile _, IncludeListFile
  | FileWrite IncludeListFile _, IncludeListFile
  | FileClose IncludeListFile, IncludeListFile => true
  | _, _ => false
  end.

(** The operations a log performs on one temporary file. *)
Definition fileOps (f : ScratchFile) (l : list Effect) : list Effect :=
  filter (touches f) l.

(** ** The dispatch, as a function of the state *)

(** The local variables of [checkQueuedFiles], as functions of its input. *)
Definition dispatchArguments (settings : Settings) (host : Host) (r : Runner)
  : list string :=
  Qt.splitSkipEmpty " " (expand host (customParameters settings))
  ++ runArguments_ r.

Definition dispatchIncludes (settings : Settings) (r : Runner) : list string :=
  if negb (ignoreIncludePaths settings) then includePaths_ r else [].

(** The test of [checkQueuedFiles] that chooses the temporary files over the
    command line. *)
Definition spills (settings : Settings) (host : Host) (r : Runner) : bool :=
  maxArgumentsLength_ r
  <=? serializedLength (dispatchArguments settings host r)
        (dispatchIncludes settings r) (fileCheckQueue_ r).

Definition failedToWrite : Effect :=
  MessageWrite "Failed to write cppcheck's argument files" Silent.

(** ** Concrete runs *)

Module Scenario.

Definition settings : Settings :=
  {| binaryFile := "/usr/bin/cppcheck"; customParameters := "--std=c++11";
     checkUnused := true; checkInconclusive := false;
     ignoreIncludePaths := false; showBinaryOutput := false;
     showId := true |}.

Definition host : Host :=
  {| expand := fun s => s; idealThreadCount := 4;
     fileListOpens := true; includeListOpens := true;
     fileListName := "/tmp/qt_temp.files";
     includeListName := "/tmp/qt_temp.includes";
     windows := false; assertions := false |}.

(** The same host on a day the temporary directory cannot be written. *)
Definition hostNoTemp : Host :=
  {| expand := fun s => s; idealThreadCount := 4;
     fileListOpens := false; includeListOpens := false;
     fileListName := "/tmp/qt_temp.files";
     includeListName := "/tmp/qt_temp.includes";
     windows := false; assertions := false |}.

(** A runner after construction (not on Linux: the ceiling is 32767) and
    [updateSettings]. *)
Definition fresh : Runner :=
  stateOf (updateSettings settings host (newRunner None)).

(** A run over [a.cpp] has been started. *)
Definition checkingA : Runner :=
  stateOf ((checkFiles ["a.cpp"] ;; onTimeout settings host) fresh).

(** While it starts, [b.cpp] is requested. *)
Definition checkingA_queuedB : Runner :=
  stateOf (checkFiles ["b.cpp"] checkingA).

(** A project large enough for the ceiling: a hundred sources, each about
    350 characters deep in the tree. *)
Definition deep : string := String.concat "" (repeat "subdirectory/" 25).

Definition sourceFile (i : nat) : string :=
  ("/home/user/project/" ++ deep ++ "file" ++ Qt.number (Z.of_nat i)
   ++ ".cpp")%string.

Definition bigProject : list string := map sourceFile (seq 0 100).
Definition otherProject : list string := map sourceFile (seq 100 100).

(** The big project is requested; the debounce timer has not fired yet. *)
Definition bigRequested : Runner :=
  stateOf ((setIncludePaths ["/opt/sdk/include"] ;; checkFiles bigProject)
             fresh).

(** The run over the big project was dispatched through the temporary
    files and has finished. *)
Definition bigChecked : Runner :=
  stateOf ((onTimeout settings host ;; started ;; onFinished 0 settings host)
             bigRequested).

End Scenario.

(** ** The output stream *)

(** What [readOutput] does with the lines it reads: it sets the value of the
    progress handle and writes to the message pane. *)
Inductive OutputAction :=
| SetProgressValue (done : Z)
| WriteMessage (text : string) (flag : MessageFlag).

Definition progressSample : string := "% done".

(** The number [readOutput] takes out of a line that ends with the
    progress sample. *)
Definition progressOf (line : string) : Z :=
  let percentEndIndex := Qt.size line - Qt.size progressSample in
  let percentStartIndex := Qt.lastIndexOfChar line " " percentEndIndex in
  Qt.toInt (Qt.mid line percentStartIndex
              (percentEndIndex - percentStartIndex)).

Fixpoint readOutputLines (r : Runner) (rawLines : list string)
  : list OutputAction :=
  match rawLines with
  | [] => []
  | rawLine :: rest =>
      let line := Qt.trimmed rawLine in
      if Qt.isEmpty line then readOutputLines r rest
      else
        (if Qt.endsWith line progressSample && futureInterface_ r
         then [SetProgressValue (progressOf line)] else [])
        ++ WriteMessage line Silent :: readOutputLines r rest
  end.

(** [readOutput] over the lines that can be read from the output channel;
    it changes no field of the runner. *)
Definition readOutput (r : Runner) (rawLines : list string)
  : list OutputAction :=
  if negb (showOutput_ r) then [] else readOutputLines r rawLines.

(** ** The runner as a machine driven by its callers and its signals *)

Inductive Event :=
| CallUpdateSettings
| CallSetIncludePaths (paths : list string)
| CallCheckFiles (fileNames : list string)
| CallStopChecking
| TimerFired
| SignalStarted
| SignalFinished (exitCode : Z)
| SignalErrorOccurred (e : ProcessError)
| SignalReadyReadStandardError (rawLines : list string).

(** One event, with the settings and the host as they are when it is
    handled. *)
Definition handle (settings : Settings) (host : Host) (ev : Event) : M unit :=
  match ev with
  | CallUpdateSettings => updateSettings settings host
  | CallSetIncludePaths paths => setIncludePaths paths
  | CallCheckFiles fileNames => checkFiles fileNames
  | CallStopChecking => stopChecking
  | TimerFired => onTimeout settings host
  | SignalStarted => started
  | SignalFinished exitCode => onFinished exitCode settings host
  | SignalErrorOccurred e => onErrorOccurred e
  | SignalReadyReadStandardError rawLines =>
      onReadyReadStandardError host rawLines
  end.

(** The states a runner can be in: the one the constructor builds and the
    ones any event leads to. *)
Inductive reachable : Runner -> Prop :=
| reachable_new (argMax : option string) : reachable (newRunner argMax)
| reachable_step (r : Runner) (settings : Settings) (host : Host)
    (ev : Event) :
    reachable r -> reachable (stateOf (handle settings host ev r)).



(** The order of [QStringList::sort]. *)
Definition sortedBefore (a b : string) : Prop := String.leb a b = true.

(** ** The ignore patterns of the options page *)

(** [applySettings] stores the text of the ignore field split at the
    commas; [initInterface] shows the stored patterns joined by commas. *)
Definition ignorePatternsOfText (text : string) : list string :=
  Qt.split "," text.

Definition ignoreTextOfPatterns (patterns : list string) : string :=
  Qt.join "," patterns.

(** A list of files as the runner keeps it: in the order of
    [QStringList::sort], no file twice. *)
Definition sortedSet (l : list string) : Prop :=
  Sorted sortedBefore l /\ NoDup l.

(** ** More concrete runs *)

Module Sample.

(** Settings with no binary configured. *)
Definition unset : Settings :=
  {| binaryFile := ""; customParameters := "";
     checkUnused := false; checkInconclusive := false;
     ignoreIncludePaths := false; showBinaryOutput := false;
     showId := false |}.

(** The host of [Scenario], the plugin built with the assertions of Qt. *)
Definition hostDebug : Host :=
  {| expand := fun s => s; idealThreadCount := 4;
     fileListOpens := true; includeListOpens := true;
     fileListName := "/tmp/qt_temp.files";
     includeListName := "/tmp/qt_temp.includes";
     windows := false; assertions := true |}.

(** Settings that show the output of the binary. *)
Definition verbose : Settings :=
  {| binaryFile := "/usr/bin/cppcheck"; customParameters := "";
     checkUnused := false; checkInconclusive := true;
     ignoreIncludePaths := false; showBinaryOutput := true;
     showId := true |}.

(** [a.cpp] is requested on a fresh runner; the timer has not fired. *)
Definition requestedA : Runner :=
  stateOf (handle Scenario.settings Scenario.host (CallCheckFiles ["a.cpp"])
             Scenario.fresh).

(** A verbose runner, built on Linux, whose run over [a.cpp] has started. *)
Definition verboseFresh : Runner :=
  stateOf (handle verbose Scenario.host CallUpdateSettings
             (newRunner (Some "2097152
"))).

Definition verboseRequested : Runner :=
  stateOf (handle verbose Scenario.host (CallCheckFiles ["a.cpp"])
             verboseFresh).

Definition verboseChecking : Runner :=
  stateOf (handle verbose Scenario.host TimerFired verboseRequested).

Definition verboseStarted : Runner :=
  stateOf (handle verbose Scenario.host SignalStarted verboseChecking).










End Sample.

(** ** Helper lemmas *)

#[local] Arguments Qt.stringListEqb : simpl never.
#[local] Arguments Qt.listIsEmpty : simpl never.
#[local] Arguments Qt.isEmpty : simpl never.
#[local] Arguments Qt.sort : simpl never.
#[local] Arguments Qt.removeDuplicates : simpl never.
#[local] Arguments Qt.join : simpl never.
#[local] Arguments Qt.splitSkipEmpty : simpl never.
#[local] Arguments Qt.mid : simpl never.

Lemma stringListEqb_eq (a b : list string) :
  Qt.stringListEqb a b = true <-> a = b.
Proof.
  revert b; induction a as [|x a IH]; intros [|y b];
    unfold Qt.stringListEqb; fold Qt.stringListEqb;
    try (split; [discriminate|discriminate]); try tauto.
  rewrite andb_true_iff, String.eqb_eq, IH.
  split; [intros [-> ->]; reflexivity | intros H; inversion H; auto].
Qed.

Lemma stringListEqb_neq (a b : list string) :
  Qt.stringListEqb a b = false <-> a <> b.
Proof.
  rewrite <- stringListEqb_eq. destruct (Qt.stringListEqb a b); split;
    congruence.
Qed.

Lemma listIsEmpty_false (l : list string) :
  l <> [] -> Qt.listIsEmpty l = false.
Proof. destruct l; [congruence | reflexivity]. Qed.

Lemma prefix_append (t post : string) : String.prefix t (t ++ post) = true.
Proof.
  induction t as [|a t IH]; simpl.
  - now destruct post.
  - destruct (ascii_dec a a); [exact IH | congruence].
Qed.

Lemma substring_all (s : string) : String.substring 0 (String.length s) s = s.
Proof. induction s as [|a s IH]; simpl; [reflexivity | now rewrite IH]. Qed.

Lemma substring_suffix (pre suf : string) :
  String.substring (String.length pre) (String.length suf) (pre ++ suf) = suf.
Proof.
  induction pre as [|a pre IH]; simpl; [apply substring_all | exact IH].
Qed.

Lemma length_append (a b : string) :
  String.length (a ++ b) = (String.length a + String.length b)%nat.
Proof. induction a as [|c a IH]; simpl; [reflexivity | now rewrite IH]. Qed.

Lemma index_at_prefix (t s : string) :
  String.prefix t s = true -> String.index 0 t s = Some 0%nat.
Proof.
  destruct s as [|b s]; intros H.
  - destruct t; [reflexivity | discriminate].
  - cbn [String.index]. now rewrite H.
Qed.

(** A text that occurs in a string is found by [index]. *)
Lemma index_of_occurrence (t pre post : string) :
  exists i, String.index 0 t (pre ++ t ++ post) = Some i.
Proof.
  induction pre as [|c pre [i IH]].
  - exists 0%nat. cbn [append]. apply index_at_prefix, prefix_append.
  - change ((String c pre ++ t ++ post)%string)
      with (String c (pre ++ t ++ post)%string).
    cbn [String.index]. rewrite IH.
    destruct (String.prefix t (String c (pre ++ t ++ post)));
      eexists; reflexivity.
Qed.

(** What [index] finds: the string splits at the position found, and the
    text searched for starts the second part. *)
Lemma index_splits (t s : string) :
  forall i, String.index 0 t s = Some i ->
  exists pre suf,
    s = (pre ++ suf)%string /\ String.length pre = i /\
    String.prefix t suf = true.
Proof.
  induction s as [|b s IH]; intros i H; cbn [String.index] in H.
  - destruct t; [|discriminate]. inversion H; subst.
    exists EmptyString, EmptyString; auto.
  - destruct (String.prefix t (String b s)) eqn:P.
    + inversion H; subst. exists EmptyString, (String b s); auto.
    + destruct (String.index 0 t s) as [n|] eqn:E; [|discriminate].
      inversion H; subst.
      destruct (IH n eq_refl) as (pre & suf & -> & <- & Hp).
      exists (String b pre), suf; auto.
Qed.

Lemma mid_to_end (pre suf : string) :
  Qt.mid (pre ++ suf) (Qt.size pre) (-1) = suf.
Proof.
  unfold Qt.mid, Qt.size. rewrite length_append.
  destruct (Z.ltb_spec (Z.of_nat (String.length pre + String.length suf))
                       (Z.of_nat (String.length pre))); [lia|].
  destruct (Z.ltb_spec (Z.of_nat (String.length pre)) 0); [lia|].
  simpl.
  replace (Z.to_nat (Z.of_nat (String.length pre)))
    with (String.length pre) by lia.
  replace (Z.to_nat (Z.of_nat (String.length pre + String.length suf)
                     - Z.of_nat (String.length pre)))
    with (String.length suf) by lia.
  apply substring_suffix.
Qed.

Lemma split_nonempty (sep : ascii) (s : string) : Qt.split sep s <> [].
Proof.
  destruct s as [|c s]; simpl; [discriminate|].
  destruct (Ascii.eqb c sep); [discriminate|].
  destruct (Qt.split sep s); discriminate.
Qed.

(** The fields of [split] are pieces of the string: the first one starts
    it, the others occur in it. *)
Lemma split_fields_occur (sep : ascii) (s : string) :
  forall h t, Qt.split sep s = h :: t ->
  (exists post, s = (h ++ post)%string) /\
  (forall f, In f t -> exists pre post, s = (pre ++ f ++ post)%string).
Proof.
  induction s as [|c s IH]; intros h t H; simpl in H.
  - inversion H; subst. split; [exists EmptyString; reflexivity|].
    intros f [].
  - destruct (Ascii.eqb c sep).
    + inversion H; subst. split; [exists (String c s); reflexivity|].
      intros f Hf.
      destruct (Qt.split sep s) as [|h' t'] eqn:E; [destruct Hf|].
      destruct (IH h' t' eq_refl) as [[post Hh] Ht].
      destruct Hf as [<-|Hf].
      * exists (String c EmptyString), post. simpl. now rewrite <- Hh.
      * destruct (Ht f Hf) as (pre & post' & ->).
        exists (String c pre), post'. reflexivity.
    + destruct (Qt.split sep s) as [|h' t'] eqn:E.
      * now destruct (split_nonempty sep s).
      * inversion H; subst.
        destruct (IH h' t eq_refl) as [[post Hh] Ht].
        split; [exists post; simpl; now rewrite <- Hh|].
        intros f Hf. destruct (Ht f Hf) as (pre & post' & ->).
        exists (String c pre), post'. reflexivity.
Qed.

(** The loop of [setIncludePaths] appends one flag for each path to what
    the computation before it has stored. *)
Lemma setIncludePaths_loop (paths : list string) :
  forall (m : M unit) (r : Runner),
    includePaths_
      (stateOf
         (fold_left
            (fun (m : M unit) (i : string) =>
               m ;;
               r <- get ;;
               modify (set_includePaths
                         (includePaths_ r ++ [("-I" ++ i)%string])))
            paths m r))
    = includePaths_ (stateOf (m r)) ++ map (String.append "-I") paths.
Proof.
  induction paths as [|p paths IH]; intros m r; simpl.
  - now rewrite app_nil_r.
  - rewrite IH. unfold bind, get, modify, stateOf.
    destruct (m r) as [[u r1] l1]; simpl.
    now rewrite <- app_assoc.
Qed.

(** ** setIncludePaths *)

(** C10: [setIncludePaths paths] replaces the stored include-path flags:
    whatever the runner held before, afterwards [includePaths_] is exactly
    ["-I"] prepended to each element of [paths], in order. *)
Theorem setIncludePaths_replaces (paths : list string) (r : Runner) :
  includePaths_ (stateOf (setIncludePaths paths r))
  = map (String.append "-I") paths.
Proof.
  unfold setIncludePaths.
  unfold bind at 1.
  destruct (modify (set_includePaths []) r) as [[u r1] l1] eqn:E.
  pose proof (setIncludePaths_loop paths (ret tt) r1) as H.
  unfold modify in E. inversion E; subst.
  destruct (fold_left _ paths (ret tt) _) as [[u2 r2] l2] eqn:F.
  unfold stateOf in *. simpl in *. exact H.
Qed.

(** ** stopChecking *)

(** C8: [stopChecking] on a runner whose process is open clears the queue
    and kills the process; the [finished] signal that follows starts no
    run: the drain of [checkQueuedFiles] finds the queue empty. *)
Theorem stopChecking_no_restart
  (r : Runner) (settings : Settings) (host : Host) (exitCode : Z) :
  processOpen r = true ->
  let stopped := stopChecking r in
  fileCheckQueue_ (stateOf stopped) = [] /\
  logOf stopped = [ProcessKill] /\
  let after := onFinished exitCode settings host (stateOf stopped) in
  starts (logOf after) = [] /\
  announced (logOf after) = [] /\
  fileCheckQueue_ (stateOf after) = [] /\
  processOpen (stateOf after) = false.
Proof.
  intros Hopen.
  unfold stopChecking, onFinished, finished, checkQueuedFiles, processClose,
    processKill, when, bind, get, modify, emit, ret, stateOf, logOf; simpl.
  rewrite Hopen; simpl.
  destruct (futureInterface_ r), (showOutput_ r); simpl; repeat split.
Qed.

(** ** readError *)

(** C7: a non-empty line of the error stream with fewer than five
    comma-separated fields is skipped: apart from the echo of the line when
    the binary's output is shown, [readError] does for it nothing at all (no
    [newTask], no failure) and goes on with the lines after it. *)
Theorem short_line_discarded
  (host : Host) (r : Runner) (rawLine : string) (rest : list string) :
  Qt.isEmpty (Qt.trimmed rawLine) = false ->
  (length (Qt.split "," (Qt.trimmed rawLine)) < 5)%nat ->
  logOf (readError host (rawLine :: rest) r)
  = (if showOutput_ r then [MessageWrite (Qt.trimmed rawLine) Silent] else [])
    ++ logOf (readError host rest r)
  /\ stateOf (readError host (rawLine :: rest) r)
     = stateOf (readError host rest r)
  /\ parseErrorLine (windows host) (showId_ r) (Qt.trimmed rawLine)
     = Discarded.
Proof.
  intros Hne Hlen.
  assert (Hp : parseErrorLine (windows host) (showId_ r) (Qt.trimmed rawLine)
               = Discarded).
  { unfold parseErrorLine, ErrorFieldMessage.
    destruct (Nat.leb_spec (length (Qt.split "," (Qt.trimmed rawLine))) 4);
      [reflexivity | lia]. }
  simpl readError. rewrite Hne.
  unfold bind, get, when, emit, ret, stateOf, logOf. rewrite Hp.
  destruct (showOutput_ r); simpl;
    destruct (readError host rest r) as [[u r'] l']; simpl; auto.
Qed.

(** The theorem at a record of three fields. *)
Lemma short_line_discarded_witness :
  Qt.isEmpty (Qt.trimmed "a.c,12,error") = false /\
  (length (Qt.split "," (Qt.trimmed "a.c,12,error")) < 5)%nat /\
  logOf (readError Scenario.host ["a.c,12,error"] Scenario.fresh) = [].
Proof.
  split; [reflexivity|]. split; [simpl; lia|].
  destruct (short_line_discarded Scenario.host Scenario.fresh
              "a.c,12,error" []) as [H _];
    [reflexivity | simpl; lia | exact H].
Defined.

(** The theorem at a runner whose run over [a.cpp] is stopped. *)
Lemma stopChecking_no_restart_witness :
  processOpen Scenario.checkingA = true /\
  starts (logOf (onFinished 0 Scenario.settings Scenario.host
                   (stateOf (stopChecking Scenario.checkingA)))) = [].
Proof.
  split; [reflexivity|].
  destruct (stopChecking_no_restart Scenario.checkingA Scenario.settings
              Scenario.host 0) as (_ & _ & H & _);
    [reflexivity | exact H].
Defined.

(** ** A process that fails to start *)

(** X27: [error] with [FailedToStart] calls the slot [finished] and nothing
    else: on every state it starts no run, leaves the queue as it is and
    closes the process. *)
Lemma failed_start_leaves_queue (r : Runner) :
  starts (logOf (onErrorOccurred FailedToStart r)) = [] /\
  fileCheckQueue_ (stateOf (onErrorOccurred FailedToStart r))
  = fileCheckQueue_ r /\
  processOpen (stateOf (onErrorOccurred FailedToStart r)) = false.
Proof.
  destruct r as [so si ra ip q cur flc flf ilf mx po pr qt fi].
  unfold onErrorOccurred, error, finished, processClose, when, bind, get,
    modify, emit, ret, stateOf, logOf; simpl.
  destruct fi, so; simpl; repeat split.
Qed.

(** C2, on the code: [b.cpp] is queued while the run over [a.cpp] starts;
    the process then fails to start.  The finish that [error] synthesizes
    closes the process and dispatches nothing, [b.cpp] stays in the queue;
    the [finished] signal of a process, from the same state, starts the run
    over [b.cpp]. *)
Theorem failed_start_skips_queue_drain :
  fileCheckQueue_ Scenario.checkingA_queuedB = ["b.cpp"] /\
  processOpen Scenario.checkingA_queuedB = true /\
  logOf (onErrorOccurred FailedToStart Scenario.checkingA_queuedB)
  = [ProcessClose] /\
  fileCheckQueue_
    (stateOf (onErrorOccurred FailedToStart Scenario.checkingA_queuedB))
  = ["b.cpp"] /\
  logOf (onFinished (-1) Scenario.settings Scenario.host
           Scenario.checkingA_queuedB)
  = [ProcessClose;
     StartedChecking ["b.cpp"];
     ProcessStart "/usr/bin/cppcheck"
       ["--std=c++11";
        "--enable=warning,style,performance,portability,information,missingInclude,unusedFunction";
        "--template={file},{line},{severity},{id},{message}";
        "b.cpp"]].
Proof. vm_compute. repeat split. Qed.

(** ** The help text of the options page *)

(** When the arguments hold [--help], an editor is shown exactly when the
    index of ["Options:"] is below the index of ["Example usage:"]; a
    marker that is absent has index -1. *)
Lemma help_shown_iff (output : string) :
  let outputString := Qt.trimmed output in
  OptionsWidget.finished [OptionsWidget.helpArg] output <> None <->
  Qt.indexOf outputString "Options:"
  < Qt.indexOf outputString "Example usage:".
Proof.
  unfold OptionsWidget.finished; simpl.
  destruct (Z.leb_spec (Qt.indexOf (Qt.trimmed output) "Example usage:")
                       (Qt.indexOf (Qt.trimmed output) "Options:"));
    split; intros; try congruence; try lia.
Qed.

(** C9, on the code: a help output that holds ["Example usage:"] and no
    ["Options:"] is not ignored; the text before ["Example usage:"] is shown
    in an editor.  With both markers in order the text from ["Options:"] up
    to ["Example usage:"] is shown, and with ["Example usage:"] absent or
    first nothing is. *)
Theorem help_without_options_marker_is_shown :
  Qt.indexOf "cppcheck [files] Example usage: cppcheck src" "Options:" = -1 /\
  OptionsWidget.finished [OptionsWidget.helpArg]
    "cppcheck [files] Example usage: cppcheck src"
  = Some "cppcheck [files] " /\
  OptionsWidget.finished [OptionsWidget.helpArg]
    "Syntax Options: -q quiet Example usage: cppcheck src"
  = Some "Options: -q quiet " /\
  OptionsWidget.finished [OptionsWidget.helpArg]
    "Example usage: cppcheck src Options: -q quiet"
  = None /\
  OptionsWidget.finished [OptionsWidget.helpArg] "Options: -q quiet" = None.
Proof. vm_compute. repeat split. Qed.

(** ** The dispatch and the temporary files *)

Lemma wrap32_small (z : Z) : - 2 ^ 31 <= z < 2 ^ 31 -> wrap32 z = z.
Proof.
  intros H. unfold wrap32. rewrite Z.mod_small; lia.
Qed.

Lemma size_nonneg (s : string) : 0 <= Qt.size s.
Proof. unfold Qt.size; lia. Qed.

(** Below 2^31 characters the sum of the source is the sum of the three
    lengths. *)
Lemma serializedLength_exact (arguments includes files : list string) :
  Qt.size (Qt.join " " arguments) + Qt.size (Qt.join " " includes)
  + Qt.size (Qt.join " " files) < 2 ^ 31 ->
  serializedLength arguments includes files
  = Qt.size (Qt.join " " arguments) + Qt.size (Qt.join " " includes)
    + Qt.size (Qt.join " " files).
Proof.
  intros H. unfold serializedLength, int_add.
  pose proof (size_nonneg (Qt.join " " arguments)).
  pose proof (size_nonneg (Qt.join " " includes)).
  pose proof (size_nonneg (Qt.join " " files)).
  rewrite (wrap32_small (_ + Qt.size (Qt.join " " includes))) by lia.
  apply wrap32_small; lia.
Qed.

(** What [setIncludePaths] stores gives the paths back once the flag is
    cut off, as the include-list file wants them. *)
Lemma strip_include_flag (path : string) :
  Qt.mid ("-I" ++ path) 2 (-1) = path.
Proof.
  change 2 with (Qt.size "-I"). apply mid_to_end.
Qed.

(** X25: a dispatch below the ceiling: the files and the include flags go
    on the command line, after the fixed arguments, and no temporary file is
    touched. *)
Lemma inline_below_ceiling
  (r : Runner) (settings : Settings) (host : Host) :
  fileCheckQueue_ r <> [] ->
  Qt.isEmpty (binaryFile settings) = false ->
  processRunning r = false ->
  spills settings host r = false ->
  let out := checkQueuedFiles settings host r in
  starts (logOf out)
  = [ProcessStart (binaryFile settings)
       (dispatchArguments settings host r ++ fileCheckQueue_ r
        ++ dispatchIncludes settings r)] /\
  announced (logOf out) = [StartedChecking (fileCheckQueue_ r)] /\
  fileOps FileListFile (logOf out) = [] /\
  fileOps IncludeListFile (logOf out) = [].
Proof.
  intros Hne Hbin Hrun Hspill.
  destruct r as [so si ra ip q cur flc flf ilf mx po pr qt fi].
  unfold spills, dispatchArguments, dispatchIncludes in *.
  simpl in Hne, Hrun, Hspill. subst pr.
  unfold checkQueuedFiles, launch, processStart, when, bind, get, modify,
    emit, ret, stateOf, logOf; simpl.
  rewrite (listIsEmpty_false q Hne), Hbin; simpl.
  rewrite Hspill; simpl.
  destruct so; simpl; auto.
Qed.

(** X26: a dispatch at or above the ceiling with a file set that is not the
    recorded one, the temporary files opening: the file-list file holds the
    dispatched files, one per line and in their order, the include-list file
    the include flags without their first two characters, and the process
    gets the two file names. *)
Lemma spill_writes_both_lists
  (r : Runner) (settings : Settings) (host : Host) :
  fileCheckQueue_ r <> [] ->
  Qt.isEmpty (binaryFile settings) = false ->
  processRunning r = false ->
  spills settings host r = true ->
  fileListFileContents_ r <> fileCheckQueue_ r ->
  fileListOpens host = true ->
  includeListOpens host = true ->
  let out := checkQueuedFiles settings host r in
  contents (fileListFile_ (stateOf out))
  = Qt.join newline (fileCheckQueue_ r) /\
  contents (includeListFile_ (stateOf out))
  = Qt.join newline
      (map (fun i => Qt.mid i 2 (-1)) (dispatchIncludes settings r)) /\
  fileListFileContents_ (stateOf out) = fileCheckQueue_ r /\
  starts (logOf out)
  = [ProcessStart (binaryFile settings)
       (dispatchArguments settings host r
        ++ [("--file-list=" ++ fileName (fileListFile_ (stateOf out)))%string;
            ("--includes-file="
             ++ fileName (includeListFile_ (stateOf out)))%string])].
Proof.
  intros Hne Hbin Hrun Hspill Hdiff Hfl Hil.
  destruct r as [so si ra ip q cur flc flf ilf mx po pr qt fi].
  unfold spills, dispatchArguments, dispatchIncludes, newline in *.
  simpl in Hne, Hrun, Hspill, Hdiff. subst pr.
  apply stringListEqb_neq in Hdiff.
  unfold checkQueuedFiles, launch, processStart, fileResize, fileOpen,
    fileWrite, fileClose, opens, when, bind, get, modify, emit, ret,
    stateOf, logOf; simpl.
  rewrite (listIsEmpty_false q Hne), Hbin; simpl.
  rewrite Hspill; simpl. rewrite Hdiff; simpl.
  rewrite Hfl; simpl. rewrite Hil; simpl.
  destruct so; simpl; auto.
Qed.

(** C1, as the code has it: when a dispatch that has to rewrite the
    temporary files cannot open one of them, the run is aborted (nothing is
    announced, no process is started) and the failure is written to the
    message pane; the queue is not kept: its files have been moved to
    [currentlyCheckingFiles_], the queue is empty, and a later trigger of
    [checkQueuedFiles] does nothing. *)
Theorem scratch_failure_aborts
  (r : Runner) (settings : Settings) (host : Host) :
  fileCheckQueue_ r <> [] ->
  Qt.isEmpty (binaryFile settings) = false ->
  spills settings host r = true ->
  fileListFileContents_ r <> fileCheckQueue_ r ->
  fileListOpens host = false \/ includeListOpens host = false ->
  let out := checkQueuedFiles settings host r in
  In failedToWrite (logOf out) /\
  starts (logOf out) = [] /\
  announced (logOf out) = [] /\
  processOpen (stateOf out) = processOpen r /\
  fileCheckQueue_ (stateOf out) = [] /\
  currentlyCheckingFiles_ (stateOf out) = fileCheckQueue_ r /\
  forall settings' host',
    logOf (checkQueuedFiles settings' host' (stateOf out)) = [].
Proof.
  intros Hne Hbin Hspill Hdiff Hfail.
  destruct r as [so si ra ip q cur flc flf ilf mx po pr qt fi].
  unfold spills, dispatchArguments, dispatchIncludes in Hspill.
  simpl in Hne, Hspill, Hdiff.
  apply stringListEqb_neq in Hdiff.
  unfold checkQueuedFiles, launch, processStart, fileResize, fileOpen,
    fileWrite, fileClose, opens, when, bind, get, modify, emit, ret,
    stateOf, logOf, failedToWrite; simpl.
  rewrite (listIsEmpty_false q Hne), Hbin; simpl.
  rewrite Hspill; simpl. rewrite Hdiff; simpl.
  destruct (fileListOpens host) eqn:Hfl; simpl.
  - destruct Hfail as [Hfail|Hfail]; [discriminate|]. rewrite Hfail; simpl.
    repeat split; auto 10.
  - repeat split; auto 10.
Qed.

(** The theorem at the big project, the temporary files not opening. *)
Lemma scratch_failure_aborts_witness :
  spills Scenario.settings Scenario.hostNoTemp Scenario.bigRequested = true /\
  fileCheckQueue_
    (stateOf (checkQueuedFiles Scenario.settings Scenario.hostNoTemp
                Scenario.bigRequested))
  = [].
Proof.
  split; [vm_compute; reflexivity|].
  destruct (scratch_failure_aborts Scenario.bigRequested Scenario.settings
              Scenario.hostNoTemp) as (_ & _ & _ & _ & H & _);
    [ vm_compute; discriminate | reflexivity | vm_compute; reflexivity
    | vm_compute; discriminate | left; reflexivity | exact H ].
Defined.

(** C1 as stated fails: the big project is queued, the dispatch spills and
    the temporary file does not open.  The failure is logged and the run is
    aborted, but the queue is empty afterwards, and the next trigger, with
    the temporary directory writable again, dispatches nothing. *)
Lemma scratch_failure_drops_queue :
  let before := Scenario.bigRequested in
  let out := onTimeout Scenario.settings Scenario.hostNoTemp before in
  fileCheckQueue_ before = Qt.sort Scenario.bigProject /\
  spills Scenario.settings Scenario.hostNoTemp before = true /\
  logOf out
  = [FileResize FileListFile 0; FileResize IncludeListFile 0;
     FileOpen FileListFile false; failedToWrite] /\
  fileCheckQueue_ (stateOf out) <> fileCheckQueue_ before /\
  logOf (onTimeout Scenario.settings Scenario.host (stateOf out)) = [].
Proof.
  vm_compute. repeat split. discriminate.
Qed.

(** C5, as the code has it: one test, on the file set, guards both
    temporary files.  A call of [checkQueuedFiles] either touches neither
    file, or it is a dispatch that spills with a file set different from the
    recorded [fileListFileContents_]; then both files are truncated, and
    both are written when they open: the include list together with the file
    list, whatever it held. *)
Theorem scratch_files_rewritten_on_new_file_set
  (r : Runner) (settings : Settings) (host : Host) :
  let out := checkQueuedFiles settings host r in
  (fileOps FileListFile (logOf out) = [] /\
   fileListFile_ (stateOf out) = fileListFile_ r)
  \/
  (spills settings host r = true /\
   fileListFileContents_ r <> fileCheckQueue_ r /\
   In (FileResize FileListFile 0) (logOf out) /\
   In (FileResize IncludeListFile 0) (logOf out) /\
   (fileListOpens host && includeListOpens host = false \/
    In (FileWrite FileListFile (Qt.join newline (fileCheckQueue_ r)))
       (logOf out) /\
    In (FileWrite IncludeListFile
          (Qt.join newline
             (map (fun i => Qt.mid i 2 (-1)) (dispatchIncludes settings r))))
       (logOf out))).
Proof.
  destruct r as [so si ra ip q cur flc flf ilf mx po pr qt fi].
  unfold spills, dispatchArguments, dispatchIncludes, newline.
  unfold checkQueuedFiles, launch, processStart, fileResize, fileOpen,
    fileWrite, fileClose, opens, when, bind, get, modify, emit, ret,
    stateOf, logOf; simpl.
  destruct (Qt.listIsEmpty q); simpl; [left; auto|].
  destruct (Qt.isEmpty (binaryFile settings)); simpl; [left; auto|].
  destruct (mx <=? _) eqn:Hspill; simpl.
  - destruct (Qt.stringListEqb flc q) eqn:Hsame; simpl.
    + left. destruct so, pr; simpl; auto.
    + right. apply stringListEqb_neq in Hsame.
      destruct (fileListOpens host), (includeListOpens host); simpl;
        destruct so, pr; simpl; auto 20.
  - left. destruct so, pr; simpl; auto.
Qed.

(** C5 as stated fails for the include list: after the run over the big
    project the include-list file holds the include directory; a different
    file set is dispatched with the same include path, and the file is
    truncated and written again with the content it already held. *)
Lemma include_list_rewritten_unchanged :
  let before := stateOf (checkFiles Scenario.otherProject Scenario.bigChecked) in
  let out := onTimeout Scenario.settings Scenario.host before in
  contents (includeListFile_ before) = "/opt/sdk/include" /\
  Qt.join newline
    (map (fun i => Qt.mid i 2 (-1))
         (dispatchIncludes Scenario.settings before))
  = "/opt/sdk/include" /\
  fileOps IncludeListFile (logOf out)
  = [FileResize IncludeListFile 0; FileOpen IncludeListFile true;
     FileWrite IncludeListFile "/opt/sdk/include";
     FileClose IncludeListFile].
Proof.
  vm_compute. repeat split.
Qed.

(** C4, on the code: the big project is checked once through the temporary
    files with the include path [/opt/sdk/include]; the include paths are
    then replaced and the same project is requested again.  The second
    dispatch spills, finds the file set equal to the recorded one and writes
    nothing: the process is started on an include-list file that still holds
    the old directory. *)
Theorem include_list_stale_on_same_file_set :
  let before :=
    stateOf ((setIncludePaths ["/opt/other/include"] ;;
              checkFiles Scenario.bigProject) Scenario.bigChecked) in
  let out := onTimeout Scenario.settings Scenario.host before in
  spills Scenario.settings Scenario.host before = true /\
  dispatchIncludes Scenario.settings before = ["-I/opt/other/include"] /\
  currentlyCheckingFiles_ (stateOf out) = Qt.sort Scenario.bigProject /\
  starts (logOf out)
  = [ProcessStart "/usr/bin/cppcheck"
       ["--std=c++11";
        "--enable=warning,style,performance,portability,information,missingInclude,unusedFunction";
        "--template={file},{line},{severity},{id},{message}";
        "--file-list=/tmp/qt_temp.files";
        "--includes-file=/tmp/qt_temp.includes"]] /\
  fileOps IncludeListFile (logOf out) = [] /\
  contents (fileListFile_ (stateOf out))
  = Qt.join newline (Qt.sort Scenario.bigProject) /\
  contents (includeListFile_ (stateOf out)) = "/opt/sdk/include".
Proof.
  intros before out.
  split; [vm_compute; reflexivity|].
  split; [vm_compute; reflexivity|].
  split; [apply stringListEqb_eq; vm_compute; reflexivity|].
  split; [vm_compute; reflexivity|].
  split; [vm_compute; reflexivity|].
  split; [apply String.eqb_eq; vm_compute; reflexivity|].
  vm_compute; reflexivity.
Qed.

(** ** The records of the error stream *)

(** X29: a record of the error stream with at least five comma-separated
    fields, the third of them not empty, gives one [newTask], wherever it
    stands in the lines that are read, and the loop goes on with the lines
    after it.  Its file is the first field through [fromNativeSeparators],
    its line the [toInt] of the second field, its severity the first
    character of the third field, its id the fourth field when ids are shown
    and empty otherwise, and its description the rest of the line from the
    first occurrence of the text of the fifth field. *)
Theorem error_line_reported
  (host : Host) (r : Runner) (rawLine : string) (rest : list string)
  (f1 f2 f3' f4 f5 : string) (c : ascii) (more : list string) :
  Qt.split "," (Qt.trimmed rawLine)
  = f1 :: f2 :: String c f3' :: f4 :: f5 :: more ->
  let line := Qt.trimmed rawLine in
  let description := Qt.mid line (Qt.indexOf line f5) (-1) in
  logOf (readError host (rawLine :: rest) r)
  = (if showOutput_ r then [MessageWrite line Silent] else [])
    ++ NewTask c (if showId_ r then f4 else EmptyString) description
         (Qt.fromNativeSeparators (windows host) f1) (Qt.toInt f2)
    :: logOf (readError host rest r)
  /\ stateOf (readError host (rawLine :: rest) r)
     = stateOf (readError host rest r)
  /\ exists before,
       line = (before ++ description)%string /\
       Qt.indexOf line f5 = Qt.size before /\
       String.prefix f5 description = true /\
       forall p, (p < String.length before)%nat ->
                 String.substring p (String.length f5) line <> f5.
Proof.
  intros Hsplit line description.
  assert (Hne : Qt.isEmpty line = false).
  { unfold line. destruct (Qt.trimmed rawLine); [discriminate|reflexivity]. }
  assert (Hparse :
    parseErrorLine (windows host) (showId_ r) line
    = Finding c (if showId_ r then f4 else EmptyString) description
        (Qt.fromNativeSeparators (windows host) f1) (Qt.toInt f2)).
  { unfold parseErrorLine, line, description. rewrite Hsplit. reflexivity. }
  assert (Hrun :
    logOf (readError host (rawLine :: rest) r)
    = (if showOutput_ r then [MessageWrite line Silent] else [])
      ++ NewTask c (if showId_ r then f4 else EmptyString) description
           (Qt.fromNativeSeparators (windows host) f1) (Qt.toInt f2)
      :: logOf (readError host rest r)
    /\ stateOf (readError host (rawLine :: rest) r)
       = stateOf (readError host rest r)).
  { simpl readError. fold line. rewrite Hne.
    unfold bind, get, when, emit, ret, logOf, stateOf. rewrite Hparse.
    destruct (showOutput_ r); simpl;
      destruct (readError host rest r) as [[u r'] l']; simpl; auto. }
  destruct Hrun as [Hlog Hstate]. split; [exact Hlog|]. split; [exact Hstate|].
  destruct (split_fields_occur "," line _ _ Hsplit) as [_ Hocc].
  destruct (Hocc f5) as (pre & post & Hline); [simpl; auto|].
  destruct (index_of_occurrence f5 pre post) as [i Hi].
  rewrite <- Hline in Hi.
  destruct (index_splits f5 line i Hi) as (before & suf & Hs & Hlen & Hp).
  assert (Hidx : Qt.indexOf line f5 = Qt.size before).
  { unfold Qt.indexOf, Qt.size. rewrite Hi, Hlen. reflexivity. }
  assert (Hd : description = suf).
  { unfold description. rewrite Hidx, Hs. apply mid_to_end. }
  exists before. rewrite Hd. repeat split; auto.
  intros p Hlt. apply (String.index_correct2 0 i f5 line Hi p); lia.
Qed.

(** The theorem at the record of the documentation of the error stream,
    followed by a line that is no record. *)
Lemma error_line_reported_witness :
  Qt.split "," (Qt.trimmed "/a/b.c,42,error,nullPointer,msg, with comma")
  = ["/a/b.c"; "42"; "error"; "nullPointer"; "msg"; " with comma"] /\
  logOf (readError Scenario.host
           ["/a/b.c,42,error,nullPointer,msg, with comma"; "done"]
           Scenario.fresh)
  = [NewTask "e" "nullPointer" "msg, with comma" "/a/b.c" 42].
Proof.
  split; [reflexivity|].
  destruct (error_line_reported Scenario.host Scenario.fresh
              "/a/b.c,42,error,nullPointer,msg, with comma" ["done"]
              "/a/b.c" "42" "rror" "nullPointer" "msg" "e"%char
              [" with comma"] eq_refl) as [H _].
  exact H.
Defined.

(** C6, on the code: a record with five fields whose severity field is
    empty.  [readError] takes [at (0)] of the empty field, outside the
    string.  In a build with assertions the assertion of [QString::at]
    fails: no [newTask] is emitted for the record and the record after it is
    not read.  In a build without them the [newTask] carries the severity 0,
    which is no character of the third field, and the loop goes on. *)
Theorem empty_severity_out_of_range :
  Qt.split "," "a.c,12,,nullPointer,msg"
  = ["a.c"; "12"; ""; "nullPointer"; "msg"] /\
  parseErrorLine false true "a.c,12,,nullPointer,msg"
  = OutOfRange "nullPointer" "msg" "a.c" 12 /\
  logOf (readError Sample.hostDebug
           ["a.c,12,,nullPointer,msg"; "b.c,3,error,id,text"] Scenario.fresh)
  = [IndexOutOfRange "QString::at"] /\
  logOf (readError Scenario.host
           ["a.c,12,,nullPointer,msg"; "b.c,3,error,id,text"] Scenario.fresh)
  = [NewTask Ascii.zero "nullPointer" "msg" "a.c" 12;
     NewTask "e" "id" "text" "b.c" 3].
Proof. vm_compute. repeat split. Qed.

(** * More of the code *)

(** ** The pending queue is a sorted set *)

Lemma existsb_eqb_In (x : string) (l : list string) :
  existsb (String.eqb x) l = true <-> In x l.
Proof.
  rewrite existsb_exists. split.
  - intros (y & Hy & E). apply String.eqb_eq in E. now subst.
  - intros H. exists x. split; [assumption | apply String.eqb_refl].
Qed.

Lemma In_removeDuplicatesFrom (l : list string) :
  forall seen x,
    In x (Qt.removeDuplicatesFrom seen l) <-> In x l /\ ~ In x seen.
Proof.
  induction l as [|y l IH]; intros seen x; simpl.
  - tauto.
  - destruct (existsb (String.eqb y) seen) eqn:E.
    + apply existsb_eqb_In in E. rewrite IH.
      split; [tauto|]. intros [[->|H] Hn]; tauto.
    + assert (Hy : ~ In y seen).
      { intros H. apply existsb_eqb_In in H. congruence. }
      simpl. rewrite IH. simpl.
      destruct (string_dec y x) as [->|Hne]; [tauto|].
      split; [tauto|]. intros [[H|H] Hn]; [congruence|]. right. tauto.
Qed.

Lemma NoDup_removeDuplicatesFrom (l : list string) :
  forall seen, NoDup (Qt.removeDuplicatesFrom seen l).
Proof.
  induction l as [|y l IH]; intros seen; simpl.
  - constructor.
  - destruct (existsb (String.eqb y) seen); [apply IH|].
    constructor; [|apply IH].
    rewrite In_removeDuplicatesFrom. simpl. tauto.
Qed.

Lemma In_insertSorted (x y : string) (l : list string) :
  In x (Qt.insertSorted y l) <-> x = y \/ In x l.
Proof.
  induction l as [|z l IH]; simpl.
  - intuition.
  - destruct (String.leb y z); simpl; [intuition|]. rewrite IH. intuition.
Qed.

Lemma In_sort (x : string) (l : list string) : In x (Qt.sort l) <-> In x l.
Proof.
  unfold Qt.sort. induction l as [|y l IH]; simpl; [tauto|].
  rewrite In_insertSorted, IH. intuition.
Qed.

Lemma NoDup_insertSorted (x : string) (l : list string) :
  NoDup l -> ~ In x l -> NoDup (Qt.insertSorted x l).
Proof.
  induction l as [|z l IH]; simpl; intros Hnd Hx.
  - constructor; [tauto | constructor].
  - destruct (String.leb x z).
    + constructor; simpl; assumption.
    + inversion Hnd; subst. constructor.
      * rewrite In_insertSorted. intuition.
      * apply IH; tauto.
Qed.

Lemma NoDup_sort (l : list string) : NoDup l -> NoDup (Qt.sort l).
Proof.
  unfold Qt.sort. induction l as [|y l IH]; simpl; intros H.
  - constructor.
  - inversion H; subst. apply NoDup_insertSorted; [auto|].
    fold (Qt.sort l). now rewrite In_sort.
Qed.

Lemma HdRel_insertSorted (y x : string) (l : list string) :
  sortedBefore y x -> HdRel sortedBefore y l ->
  HdRel sortedBefore y (Qt.insertSorted x l).
Proof.
  intros Hyx Hl. destruct l as [|z l]; simpl.
  - constructor; assumption.
  - destruct (String.leb x z); constructor; [assumption|].
    now inversion Hl.
Qed.

Lemma Sorted_insertSorted (x : string) (l : list string) :
  Sorted sortedBefore l -> Sorted sortedBefore (Qt.insertSorted x l).
Proof.
  induction l as [|z l IH]; simpl; intros H.
  - repeat constructor.
  - destruct (String.leb x z) eqn:E.
    + constructor; [assumption | constructor; exact E].
    + inversion H; subst. constructor; [auto|].
      apply HdRel_insertSorted; [|assumption].
      destruct (String.leb_total x z) as [T|T]; [congruence | exact T].
Qed.

Lemma Sorted_sort (l : list string) : Sorted sortedBefore (Qt.sort l).
Proof.
  unfold Qt.sort. induction l as [|y l IH]; simpl.
  - constructor.
  - now apply Sorted_insertSorted.
Qed.

Lemma sort_of_sorted (l : list string) :
  Sorted sortedBefore l -> Qt.sort l = l.
Proof.
  unfold Qt.sort. induction l as [|y l IH]; simpl; intros H; [reflexivity|].
  inversion H as [|? ? Hs Hh]; subst. rewrite (IH Hs).
  destruct l as [|z l]; simpl; [reflexivity|].
  inversion Hh as [|? ? Hyz]; subst. unfold sortedBefore in Hyz.
  now rewrite Hyz.
Qed.

(** Strings that are already there are dropped by [removeDuplicates]. *)
Lemma removeDuplicatesFrom_absorbs (b a : list string) :
  forall seen,
    NoDup a -> (forall x, In x a -> ~ In x seen) ->
    (forall x, In x b -> In x a \/ In x seen) ->
    Qt.removeDuplicatesFrom seen (a ++ b) = a.
Proof.
  induction a as [|y a IH]; intros seen Hnd Hdis Hb; simpl.
  - induction b as [|z b IHb]; simpl; [reflexivity|].
    assert (Hz : In z seen).
    { destruct (Hb z) as [[]|H]; [simpl; auto | exact H]. }
    apply existsb_eqb_In in Hz. rewrite Hz. apply IHb.
    intros x Hx. apply Hb. now right.
  - assert (E : existsb (String.eqb y) seen = false).
    { destruct (existsb (String.eqb y) seen) eqn:E; [|reflexivity].
      apply existsb_eqb_In in E. destruct (Hdis y); simpl; auto. }
    rewrite E. f_equal. inversion Hnd; subst. apply IH; [assumption| |].
    + intros x Hx [->|Hs]; [contradiction|]. apply (Hdis x); simpl; auto.
    + intros x Hx. destruct (Hb x Hx) as [[->|H]|H]; simpl; auto.
Qed.

(** What [checkFiles] leaves in the queue and what it asks of its
    collaborators. *)
Lemma checkFiles_queue (fileNames : list string) (r : Runner) :
  fileCheckQueue_ (stateOf (checkFiles fileNames r))
  = Qt.sort (Qt.removeDuplicates (fileCheckQueue_ r ++ fileNames)).
Proof.
  destruct r as [so si ra ip q cur flc flf ilf mx po pr qt fi].
  unfold checkFiles, processKill, when, bind, get, modify, emit, ret,
    stateOf; simpl.
  destruct po; simpl;
    [destruct (Qt.stringListEqb _ cur) | destruct qt]; reflexivity.
Qed.

Lemma checkFiles_log (fileNames : list string) (r : Runner) :
  logOf (checkFiles fileNames r)
  = if processOpen r then
      if Qt.stringListEqb
           (Qt.sort (Qt.removeDuplicates (fileCheckQueue_ r ++ fileNames)))
           (currentlyCheckingFiles_ r)
      then [ProcessKill] else []
    else if queueTimerActive r then [] else [SingleShot 200].
Proof.
  destruct r as [so si ra ip q cur flc flf ilf mx po pr qt fi].
  unfold checkFiles, processKill, when, bind, get, modify, emit, ret,
    logOf; simpl.
  destruct po; simpl;
    [destruct (Qt.stringListEqb _ cur) | destruct qt]; reflexivity.
Qed.

(** The fields [checkFiles] leaves alone. *)
Lemma checkFiles_frame (fileNames : list string) (r : Runner) :
  let r' := stateOf (checkFiles fileNames r) in
  processOpen r' = processOpen r /\ processRunning r' = processRunning r /\
  queueTimerActive r' = queueTimerActive r /\
  currentlyCheckingFiles_ r' = currentlyCheckingFiles_ r /\
  fileListFileContents_ r' = fileListFileContents_ r /\
  includePaths_ r' = includePaths_ r /\
  runArguments_ r' = runArguments_ r /\
  maxArgumentsLength_ r' = maxArgumentsLength_ r /\
  showOutput_ r' = showOutput_ r /\
  futureInterface_ r' = futureInterface_ r.
Proof.
  destruct r as [so si ra ip q cur flc flf ilf mx po pr qt fi].
  unfold checkFiles, processKill, when, bind, get, modify, emit, ret,
    stateOf; simpl.
  destruct po; simpl;
    [destruct (Qt.stringListEqb _ cur) | destruct qt]; simpl;
    repeat split.
Qed.

Lemma checkFiles_queue_sorted (fileNames : list string) (r : Runner) :
  Sorted sortedBefore (fileCheckQueue_ (stateOf (checkFiles fileNames r))) /\
  NoDup (fileCheckQueue_ (stateOf (checkFiles fileNames r))).
Proof.
  rewrite checkFiles_queue. split; [apply Sorted_sort|].
  apply NoDup_sort, NoDup_removeDuplicatesFrom.
Qed.

Lemma checkFiles_queue_members (fileNames : list string) (r : Runner) :
  forall x, In x (fileCheckQueue_ (stateOf (checkFiles fileNames r)))
            <-> In x (fileCheckQueue_ r) \/ In x fileNames.
Proof.
  intros x. rewrite checkFiles_queue, In_sort. unfold Qt.removeDuplicates.
  rewrite In_removeDuplicatesFrom, in_app_iff. simpl. tauto.
Qed.

(** X1: after [checkFiles] the pending queue is sorted, holds no string
    twice, and holds exactly the strings that were queued before or are
    requested now. *)
Theorem checkFiles_queue_sorted_set (fileNames : list string) (r : Runner) :
  let queue := fileCheckQueue_ (stateOf (checkFiles fileNames r)) in
  Sorted sortedBefore queue /\
  NoDup queue /\
  forall x, In x queue <-> In x (fileCheckQueue_ r) \/ In x fileNames.
Proof.
  cbv zeta. destruct (checkFiles_queue_sorted fileNames r) as [Hs Hn].
  repeat split; try assumption; apply checkFiles_queue_members.
Qed.

(** X2: requesting again the files that have just been requested leaves
    the queue as it is. *)
Theorem checkFiles_same_request_keeps_queue
  (fileNames : list string) (r : Runner) :
  fileCheckQueue_
    (stateOf (checkFiles fileNames (stateOf (checkFiles fileNames r))))
  = fileCheckQueue_ (stateOf (checkFiles fileNames r)).
Proof.
  rewrite (checkFiles_queue fileNames (stateOf (checkFiles fileNames r))).
  destruct (checkFiles_queue_sorted fileNames r) as [Hs Hn].
  pose proof (checkFiles_queue_members fileNames r) as Hin.
  unfold Qt.removeDuplicates.
  rewrite removeDuplicatesFrom_absorbs; auto.
  - now apply sort_of_sorted.
  - intros x Hx. left. apply Hin. now right.
Qed.

(** ** Triggers of [checkQueuedFiles] *)

Ltac run_checkQueuedFiles :=
  unfold checkQueuedFiles, launch, processStart, fileResize, fileOpen,
    fileWrite, fileClose, opens, when, bind, get, modify, emit, ret,
    stateOf, logOf; simpl.

(** A trigger that finds the queue empty or no binary configured is
    nothing. *)
Lemma checkQueuedFiles_nothing_to_do
  (r : Runner) (settings : Settings) (host : Host) :
  fileCheckQueue_ r = [] \/ Qt.isEmpty (binaryFile settings) = true ->
  checkQueuedFiles settings host r = (tt, r, []).
Proof.
  intros H. unfold checkQueuedFiles, bind, get, ret.
  destruct (Qt.listIsEmpty (fileCheckQueue_ r)) eqn:E; [reflexivity|].
  destruct H as [H|H]; [rewrite H in E; discriminate|].
  now rewrite H.
Qed.

(** A dispatch that can go through: files queued, a binary configured, no
    process running, the temporary files opening. *)
Lemma checkQueuedFiles_dispatches
  (r : Runner) (settings : Settings) (host : Host) :
  fileCheckQueue_ r <> [] ->
  Qt.isEmpty (binaryFile settings) = false ->
  processRunning r = false ->
  fileListOpens host = true ->
  includeListOpens host = true ->
  let out := checkQueuedFiles settings host r in
  announced (logOf out) = [StartedChecking (fileCheckQueue_ r)] /\
  (exists arguments,
      starts (logOf out) = [ProcessStart (binaryFile settings) arguments]) /\
  currentlyCheckingFiles_ (stateOf out) = fileCheckQueue_ r /\
  fileCheckQueue_ (stateOf out) = [] /\
  processOpen (stateOf out) = true /\
  processRunning (stateOf out) = true.
Proof.
  intros Hne Hbin Hrun Hfl Hil.
  destruct r as [so si ra ip q cur flc flf ilf mx po pr qt fi].
  simpl in Hne, Hrun. subst pr.
  run_checkQueuedFiles.
  rewrite (listIsEmpty_false q Hne), Hbin; simpl.
  destruct (mx <=? _); simpl;
    [ destruct (Qt.stringListEqb flc q); simpl; rewrite ?Hfl; simpl;
      rewrite ?Hil; simpl | ];
    destruct so; simpl; repeat split; eexists; reflexivity.
Qed.

(** X3: with no binary configured a trigger of [checkQueuedFiles] does
    nothing at all and the queue is kept; once a binary is configured the
    next trigger dispatches the files that were kept. *)
Theorem no_binary_keeps_queue
  (r : Runner) (unset configured : Settings) (host : Host) :
  Qt.isEmpty (binaryFile unset) = true ->
  Qt.isEmpty (binaryFile configured) = false ->
  fileCheckQueue_ r <> [] ->
  processRunning r = false ->
  fileListOpens host = true ->
  includeListOpens host = true ->
  let skipped := checkQueuedFiles unset host r in
  logOf skipped = [] /\
  stateOf skipped = r /\
  announced (logOf (checkQueuedFiles configured host (stateOf skipped)))
  = [StartedChecking (fileCheckQueue_ r)].
Proof.
  intros Hunset Hset Hne Hrun Hfl Hil skipped.
  unfold skipped.
  rewrite (checkQueuedFiles_nothing_to_do r unset host) by now right.
  repeat split.
  now destruct (checkQueuedFiles_dispatches r configured host Hne Hset Hrun
                  Hfl Hil) as (Ha & _).
Qed.

(** X4: with a binary configured [checkQueuedFiles] always leaves the queue
    empty, whether the run starts, the start is refused or the temporary
    files fail; the files it found in the queue are the current set. *)
Theorem checkQueuedFiles_consumes_queue
  (r : Runner) (settings : Settings) (host : Host) :
  Qt.isEmpty (binaryFile settings) = false ->
  let out := checkQueuedFiles settings host r in
  fileCheckQueue_ (stateOf out) = [] /\
  (fileCheckQueue_ r = [] \/
   currentlyCheckingFiles_ (stateOf out) = fileCheckQueue_ r).
Proof.
  intros Hbin.
  destruct r as [so si ra ip q cur flc flf ilf mx po pr qt fi].
  run_checkQueuedFiles.
  destruct q as [|x q]; [cbn; auto|].
  change (Qt.listIsEmpty (x :: q)) with false. rewrite Hbin; simpl.
  destruct (mx <=? _); simpl;
    [ destruct (Qt.stringListEqb flc (x :: q)); simpl;
      [ | destruct (fileListOpens host); simpl;
          [destruct (includeListOpens host); simpl|] ] | ];
    destruct so, pr; simpl; auto.
Qed.

(** X5: [checkQueuedFiles] does not look at the process.  A trigger that
    comes while a process is running, with files in the queue, takes them
    out of the queue and announces them, and the start is refused by the
    running process: no run is started for them. *)
Theorem trigger_while_running_drops_queue
  (r : Runner) (settings : Settings) (host : Host) :
  fileCheckQueue_ r <> [] ->
  Qt.isEmpty (binaryFile settings) = false ->
  processRunning r = true ->
  fileListOpens host = true ->
  includeListOpens host = true ->
  let out := checkQueuedFiles settings host r in
  announced (logOf out) = [StartedChecking (fileCheckQueue_ r)] /\
  starts (logOf out) = [] /\
  In ProcessStartWhileRunning (logOf out) /\
  fileCheckQueue_ (stateOf out) = [] /\
  currentlyCheckingFiles_ (stateOf out) = fileCheckQueue_ r.
Proof.
  intros Hne Hbin Hrun Hfl Hil.
  destruct r as [so si ra ip q cur flc flf ilf mx po pr qt fi].
  simpl in Hne, Hrun. subst pr.
  run_checkQueuedFiles.
  rewrite (listIsEmpty_false q Hne), Hbin; simpl.
  destruct (mx <=? _); simpl;
    [ destruct (Qt.stringListEqb flc q); simpl; rewrite ?Hfl; simpl;
      rewrite ?Hil; simpl | ];
    destruct so; simpl; auto 20.
Qed.

(** X6: two requests while the runner is idle arm two timers ([queueTimer_]
    is never the timer that runs) and give one run: the first timer
    dispatches everything that was requested, the second finds the queue
    empty and does nothing. *)
Theorem two_requests_one_run
  (r : Runner) (first second : list string)
  (settings : Settings) (host : Host) :
  first <> [] ->
  processOpen r = false ->
  processRunning r = false ->
  queueTimerActive r = false ->
  Qt.isEmpty (binaryFile settings) = false ->
  fileListOpens host = true ->
  includeListOpens host = true ->
  let r1 := stateOf (checkFiles first r) in
  let r2 := stateOf (checkFiles second r1) in
  let timer1 := onTimeout settings host r2 in
  let timer2 := onTimeout settings host (stateOf timer1) in
  logOf (checkFiles first r) = [SingleShot 200] /\
  logOf (checkFiles second r1) = [SingleShot 200] /\
  announced (logOf timer1) = [StartedChecking (fileCheckQueue_ r2)] /\
  (forall x, In x (fileCheckQueue_ r2)
             <-> In x (fileCheckQueue_ r) \/ In x first \/ In x second) /\
  (exists arguments,
      starts (logOf timer1) = [ProcessStart (binaryFile settings) arguments]) /\
  logOf timer2 = [].
Proof.
  intros Hne Hopen Hrun Htimer Hbin Hfl Hil r1 r2 timer1 timer2.
  destruct (checkFiles_frame first r) as (Ho1 & Hr1 & Ht1 & _).
  destruct (checkFiles_frame second r1) as (Ho2 & Hr2 & Ht2 & _).
  fold r1 in Ho1, Hr1, Ht1. fold r2 in Ho2, Hr2, Ht2.
  pose proof (checkFiles_queue_members first r) as Hin1.
  pose proof (checkFiles_queue_members second r1) as Hin2.
  fold r1 in Hin1. fold r2 in Hin2.
  assert (Hq : fileCheckQueue_ r2 <> []).
  { destruct first as [|x first]; [congruence|].
    intros E. assert (H : In x (fileCheckQueue_ r2)).
    { apply Hin2. left. apply Hin1. right. simpl; auto. }
    rewrite E in H. destruct H. }
  destruct (checkQueuedFiles_dispatches r2 settings host Hq Hbin)
    as (Ha & Hs & _ & Hempty & _); [congruence | assumption | assumption |].
  split; [rewrite checkFiles_log, Hopen, Htimer; reflexivity|].
  split; [rewrite checkFiles_log; fold r1; rewrite Ho1, Hopen, Ht1, Htimer;
          reflexivity|].
  split; [exact Ha|].
  split; [intros x; rewrite Hin2, Hin1; tauto|].
  split; [exact Hs|].
  unfold timer2, onTimeout.
  rewrite checkQueuedFiles_nothing_to_do; [reflexivity | left; exact Hempty].
Qed.

(** X7: files requested while another set is being checked only wait: the
    call does nothing to the process or to a timer.  The [finished] signal
    of the running process then starts one run over the queue. *)
Theorem request_while_running_waits_for_finish
  (r : Runner) (fileNames : list string)
  (settings : Settings) (host : Host) (exitCode : Z) :
  fileNames <> [] ->
  processOpen r = true ->
  Qt.sort (Qt.removeDuplicates (fileCheckQueue_ r ++ fileNames))
  <> currentlyCheckingFiles_ r ->
  Qt.isEmpty (binaryFile settings) = false ->
  fileListOpens host = true ->
  includeListOpens host = true ->
  let requested := checkFiles fileNames r in
  let queue := fileCheckQueue_ (stateOf requested) in
  logOf requested = [] /\
  let after := onFinished exitCode settings host (stateOf requested) in
  announced (logOf after) = [StartedChecking queue] /\
  (exists arguments,
      starts (logOf after) = [ProcessStart (binaryFile settings) arguments]) /\
  currentlyCheckingFiles_ (stateOf after) = queue /\
  fileCheckQueue_ (stateOf after) = [].
Proof.
  intros Hne Hopen Hdiff Hbin Hfl Hil requested queue.
  apply stringListEqb_neq in Hdiff.
  split; [unfold requested; rewrite checkFiles_log, Hopen, Hdiff; reflexivity|].
  assert (Hq : queue <> []).
  { pose proof (checkFiles_queue_members fileNames r) as Hin.
    fold requested in Hin. fold queue in Hin.
    destruct fileNames as [|x fileNames]; [congruence|].
    intros E. assert (H : In x queue) by (apply Hin; right; simpl; auto).
    rewrite E in H. destruct H. }
  unfold queue in *. clear queue.
  destruct (stateOf requested)
    as [so si ra ip q cur flc flf ilf mx po pr qt fi].
  simpl in Hq |- *.
  unfold onFinished, finished, processClose. run_checkQueuedFiles.
  destruct fi, so; simpl;
    rewrite (listIsEmpty_false q Hq), Hbin; simpl;
    (destruct (mx <=? _); simpl;
     [ destruct (Qt.stringListEqb flc q); simpl; rewrite ?Hfl; simpl;
       rewrite ?Hil; simpl
     | ]);
    repeat split; eexists; reflexivity.
Qed.

(** X8: [stopChecking] while no process is open kills nothing and empties
    the queue; the timer of a request made before it fires on an empty
    queue and does nothing: the request is cancelled. *)
Theorem stop_cancels_pending_request
  (r : Runner) (settings : Settings) (host : Host) :
  processOpen r = false ->
  let stopped := stopChecking r in
  logOf stopped = [] /\
  fileCheckQueue_ (stateOf stopped) = [] /\
  onTimeout settings host (stateOf stopped) = (tt, stateOf stopped, []).
Proof.
  intros Hopen stopped.
  assert (H : logOf stopped = [] /\ fileCheckQueue_ (stateOf stopped) = []).
  { unfold stopped. destruct r as [so si ra ip q cur flc flf ilf mx po pr qt fi].
    simpl in Hopen. subst po.
    unfold stopChecking, processKill, when, bind, get, modify, emit, ret,
      stateOf, logOf; simpl. auto. }
  destruct H as [Hl Hq]. repeat split; [assumption | assumption |].
  unfold onTimeout. apply checkQueuedFiles_nothing_to_do. now left.
Qed.

(** ** What each member function leaves alone *)

(** [setIncludePaths] as one update of the state. *)
Lemma setIncludePaths_loop_run (paths : list string) :
  forall (m : M unit) (r : Runner) (acc : list string),
    m r = (tt, set_includePaths acc r, []) ->
    fold_left
      (fun (m : M unit) (i : string) =>
         m ;;
         r <- get ;;
         modify (set_includePaths (includePaths_ r ++ [("-I" ++ i)%string])))
      paths m r
    = (tt, set_includePaths (acc ++ map (String.append "-I") paths) r, []).
Proof.
  induction paths as [|p paths IH]; intros m r acc Hm; simpl.
  - now rewrite app_nil_r.
  - rewrite (IH _ r (acc ++ [("-I" ++ p)%string])).
    + now rewrite <- app_assoc.
    + unfold bind, get, modify. rewrite Hm. destruct r; reflexivity.
Qed.

Lemma bind_run {A B} (m : M A) (k : A -> M B) (r r1 : Runner) (a : A)
  (l1 : list Effect) :
  m r = (a, r1, l1) ->
  bind m k r = (let '(b, r2, l2) := k a r1 in (b, r2, l1 ++ l2)).
Proof. unfold bind. now intros ->. Qed.

Lemma setIncludePaths_run (paths : list string) (r : Runner) :
  setIncludePaths paths r
  = (tt, set_includePaths (map (String.append "-I") paths) r, []).
Proof.
  unfold setIncludePaths.
  rewrite (bind_run _ _ r (set_includePaths [] r) tt []) by reflexivity.
  rewrite (setIncludePaths_loop_run paths (ret tt) (set_includePaths [] r) []).
  - destruct r; reflexivity.
  - destruct r; reflexivity.
Qed.

Lemma updateSettings_run (settings : Settings) (host : Host) (r : Runner) :
  updateSettings settings host r
  = (tt,
     set_runArguments
       ((if checkUnused settings then []
         else [("-j " ++ Qt.number (idealThreadCount host))%string])
        ++ [("--enable=warning,style,performance,portability,information,missingInclude"
             ++ (if checkUnused settings then ",unusedFunction" else ""))%string]
        ++ (if checkInconclusive settings then ["--inconclusive"] else [])
        ++ ["--template={file},{line},{severity},{id},{message}"])
       (set_showId (showId settings)
          (set_showOutput (showBinaryOutput settings) r)),
     []).
Proof.
  destruct r as [so si ra ip q cur flc flf ilf mx po pr qt fi].
  unfold updateSettings, bind, get, modify, ret; simpl.
  destruct (checkUnused settings), (checkInconclusive settings); reflexivity.
Qed.

Lemma readError_state (host : Host) (rawLines : list string) (r : Runner) :
  stateOf (readError host rawLines r) = r.
Proof.
  induction rawLines as [|raw rest IH]; [reflexivity|].
  simpl readError. destruct (Qt.isEmpty (Qt.trimmed raw)); [exact IH|].
  unfold bind, get, when, emit, ret, stateOf in *.
  destruct (showOutput_ r); simpl;
    destruct (parseErrorLine _ _ _); simpl;
    try destruct (assertions host); simpl;
    try reflexivity; destruct (readError host rest r) as [[u r'] l'];
    simpl in *; exact IH.
Qed.

Lemma onReadyReadStandardError_state
  (host : Host) (rawLines : list string) (r : Runner) :
  stateOf (onReadyReadStandardError host rawLines r) = r.
Proof.
  pose proof (readError_state host rawLines r) as H.
  unfold onReadyReadStandardError, bind, emit, stateOf in *.
  destruct (readError host rawLines r) as [[u r'] l']. exact H.
Qed.

(** [checkQueuedFiles] either leaves the queue, the current set and the
    recorded file list as they are, or moves the queue to the current set
    (and, with it or not, to the recorded file list). *)
Lemma checkQueuedFiles_fields
  (r : Runner) (settings : Settings) (host : Host) :
  let r' := stateOf (checkQueuedFiles settings host r) in
  maxArgumentsLength_ r' = maxArgumentsLength_ r /\
  includePaths_ r' = includePaths_ r /\
  runArguments_ r' = runArguments_ r /\
  futureInterface_ r' = futureInterface_ r /\
  ((fileCheckQueue_ r' = fileCheckQueue_ r /\
    currentlyCheckingFiles_ r' = currentlyCheckingFiles_ r /\
    fileListFileContents_ r' = fileListFileContents_ r)
   \/
   (fileCheckQueue_ r' = [] /\
    currentlyCheckingFiles_ r' = fileCheckQueue_ r /\
    (fileListFileContents_ r' = fileListFileContents_ r \/
     fileListFileContents_ r' = fileCheckQueue_ r))).
Proof.
  destruct r as [so si ra ip q cur flc flf ilf mx po pr qt fi].
  run_checkQueuedFiles.
  destruct (Qt.listIsEmpty q); simpl; [auto 10|].
  destruct (Qt.isEmpty (binaryFile settings)); simpl; [auto 10|].
  destruct (mx <=? _); simpl;
    [ destruct (Qt.stringListEqb flc q); simpl;
      [ | destruct (fileListOpens host); simpl;
          [destruct (includeListOpens host); simpl|] ] | ];
    destruct so, pr; simpl; auto 20.
Qed.

Lemma finished_run (exitCode : Z) (r : Runner) :
  stateOf (finished exitCode r) = set_process false false r.
Proof.
  destruct r as [so si ra ip q cur flc flf ilf mx po pr qt fi].
  unfold finished, processClose, when, bind, get, modify, emit, ret, stateOf;
    simpl.
  destruct fi, so; reflexivity.
Qed.

Lemma onFinished_state
  (exitCode : Z) (settings : Settings) (host : Host) (r : Runner) :
  stateOf (onFinished exitCode settings host r)
  = stateOf (checkQueuedFiles settings host (set_process false false r)).
Proof.
  pose proof (finished_run exitCode (set_process (processOpen r) false r))
    as Hf.
  unfold onFinished, bind, get, modify, stateOf in *. simpl in *.
  destruct (finished exitCode (set_process (processOpen r) false r))
    as [[u r1] l1]. simpl in Hf. subst r1.
  destruct r; simpl.
  destruct (checkQueuedFiles settings host _) as [[u2 r2] l2]. reflexivity.
Qed.

Lemma onErrorOccurred_state (e : ProcessError) (r : Runner) :
  stateOf (onErrorOccurred e r)
  = match e with
    | FailedToStart => set_process false false r
    | _ => r
    end.
Proof.
  destruct r as [so si ra ip q cur flc flf ilf mx po pr qt fi].
  unfold onErrorOccurred, error, finished, processClose, when, bind, get,
    modify, emit, ret, stateOf; simpl.
  destruct e; simpl; destruct so; simpl; try reflexivity;
    destruct fi; reflexivity.
Qed.

Lemma stopChecking_state (r : Runner) :
  stateOf (stopChecking r) = set_fileCheckQueue [] r.
Proof.
  destruct r as [so si ra ip q cur flc flf ilf mx po pr qt fi].
  unfold stopChecking, processKill, when, bind, get, modify, emit, ret,
    stateOf; simpl.
  destruct po; reflexivity.
Qed.

Lemma started_state (r : Runner) :
  stateOf (started r) = set_futureInterface true r.
Proof.
  destruct r as [so si ra ip q cur flc flf ilf mx po pr qt fi].
  unfold started, when, bind, get, modify, emit, ret, stateOf; simpl.
  destruct so; reflexivity.
Qed.

(** The fields of the state an event can change, and to what. *)
Lemma handle_fields
  (settings : Settings) (host : Host) (ev : Event) (r : Runner) :
  let r' := stateOf (handle settings host ev r) in
  maxArgumentsLength_ r' = maxArgumentsLength_ r /\
  (includePaths_ r' = includePaths_ r \/
   exists paths, includePaths_ r' = map (String.append "-I") paths) /\
  (fileCheckQueue_ r' = fileCheckQueue_ r \/ fileCheckQueue_ r' = [] \/
   exists fileNames,
     fileCheckQueue_ r'
     = Qt.sort (Qt.removeDuplicates (fileCheckQueue_ r ++ fileNames))) /\
  (currentlyCheckingFiles_ r' = currentlyCheckingFiles_ r \/
   currentlyCheckingFiles_ r' = fileCheckQueue_ r) /\
  (fileListFileContents_ r' = fileListFileContents_ r \/
   fileListFileContents_ r' = fileCheckQueue_ r).
Proof.
  destruct ev; simpl handle; cbv zeta.
  - rewrite updateSettings_run. destruct r; simpl; auto 10.
  - rewrite setIncludePaths_run. destruct r; simpl. eauto 10.
  - destruct (checkFiles_frame fileNames r)
      as (_ & _ & _ & Hc & Hf & Hi & _ & Hm & _).
    cbv zeta in Hc, Hf, Hi, Hm.
    rewrite checkFiles_queue, Hc, Hf, Hi, Hm.
    repeat split; auto. right; right. eexists; reflexivity.
  - rewrite stopChecking_state. destruct r; simpl; auto 10.
  - unfold onTimeout.
    destruct (checkQueuedFiles_fields r settings host)
      as (Hm & Hi & _ & _ & [(Hq & Hc & Hf)|(Hq & Hc & Hf)]);
      rewrite Hm, Hi, Hq, Hc; repeat split; auto;
      destruct Hf as [->| ->]; auto.
  - rewrite started_state. destruct r; simpl; auto 10.
  - rewrite onFinished_state.
    destruct (checkQueuedFiles_fields (set_process false false r) settings
                host)
      as (Hm & Hi & _ & _ & [(Hq & Hc & Hf)|(Hq & Hc & Hf)]);
      rewrite Hm, Hi, Hq, Hc; destruct r; simpl in *; repeat split; auto;
      destruct Hf as [->| ->]; auto.
  - rewrite onErrorOccurred_state. destruct e, r; simpl; auto 10.
  - rewrite onReadyReadStandardError_state. auto 10.
Qed.

Lemma toInt_range (s : string) : Qt.INT_MIN <= Qt.toInt s <= Qt.INT_MAX.
Proof.
  unfold Qt.toInt.
  destruct (match Qt.trimmed s with
            | String "-"%char r => option_map Z.opp (Qt.unsignedValue r)
            | String "+"%char r => Qt.unsignedValue r
            | _ => Qt.unsignedValue (Qt.trimmed s)
            end) as [z|]; [|unfold Qt.INT_MIN, Qt.INT_MAX; lia].
  destruct ((Qt.INT_MIN <=? z) && (z <=? Qt.INT_MAX)) eqn:E;
    [|unfold Qt.INT_MIN, Qt.INT_MAX; lia].
  apply andb_true_iff in E. destruct E as [E1 E2].
  apply Z.leb_le in E1, E2. lia.
Qed.

(** ** Invariants of the runner *)

(** X9: the ceiling is fixed by the constructor and no event changes it: in
    every state of the runner it is at least 32000, whatever [getconf]
    printed, and fits an [int]. *)
Theorem ceiling_bounds (r : Runner) :
  reachable r -> 32000 <= maxArgumentsLength_ r <= Qt.INT_MAX.
Proof.
  induction 1 as [argMax | r settings host ev Hr IH].
  - destruct argMax as [out|]; simpl; [|unfold Qt.INT_MAX; lia].
    pose proof (toInt_range (Qt.removeNewlines out)).
    unfold Qt.INT_MAX in *. lia.
  - destruct (handle_fields settings host ev r) as (Hm & _).
    now rewrite Hm.
Qed.

Lemma sortedSet_nil : sortedSet [].
Proof. split; constructor. Qed.

Lemma sortedSet_merge (q fileNames : list string) :
  sortedSet (Qt.sort (Qt.removeDuplicates (q ++ fileNames))).
Proof.
  split; [apply Sorted_sort|].
  apply NoDup_sort, NoDup_removeDuplicatesFrom.
Qed.

(** X10: in every state of the runner the pending queue, the set being
    checked and the recorded content of the file-list file are sorted and
    hold no file twice. *)
Theorem file_sets_sorted (r : Runner) :
  reachable r ->
  (Sorted sortedBefore (fileCheckQueue_ r) /\ NoDup (fileCheckQueue_ r)) /\
  (Sorted sortedBefore (currentlyCheckingFiles_ r) /\
   NoDup (currentlyCheckingFiles_ r)) /\
  (Sorted sortedBefore (fileListFileContents_ r) /\
   NoDup (fileListFileContents_ r)).
Proof.
  induction 1 as [argMax | r settings host ev Hr (Hq & Hc & Hf)].
  - simpl. repeat split; constructor.
  - destruct (handle_fields settings host ev r)
      as (_ & _ & Hq' & Hc' & Hf').
    split; [|split].
    + destruct Hq' as [->|[->|(fileNames & ->)]];
        [assumption | apply sortedSet_nil | apply sortedSet_merge].
    + destruct Hc' as [->| ->]; assumption.
    + destruct Hf' as [->| ->]; assumption.
Qed.

(** X11: in every state of the runner each stored include flag is ["-I"]
    followed by a path: cutting the first two characters off, as the write
    of the include-list file does, and putting the flag back gives the
    stored flags. *)
Theorem include_flags_strip (r : Runner) :
  reachable r ->
  map (String.append "-I")
      (map (fun i => Qt.mid i 2 (-1)) (includePaths_ r))
  = includePaths_ r.
Proof.
  assert (Hstrip : forall paths,
    map (String.append "-I")
        (map (fun i => Qt.mid i 2 (-1)) (map (String.append "-I") paths))
    = map (String.append "-I") paths).
  { induction paths as [|p paths IH]; [reflexivity|].
    cbn [map]. rewrite IH. f_equal. now rewrite strip_include_flag. }
  induction 1 as [argMax | r settings host ev Hr IH].
  - reflexivity.
  - destruct (handle_fields settings host ev r)
      as (_ & [->|(paths & ->)] & _); [exact IH | apply Hstrip].
Qed.

(** ** updateSettings and setIncludePaths *)

(** X12: the fixed arguments [updateSettings] builds depend on the
    settings alone, not on what the runner held: the thread hint [-j] is
    there exactly when the unused-function check is off, the [--enable]
    list is the built-in one (with [unusedFunction] when that check is on),
    [--inconclusive] follows its setting and the template comes last. *)
Theorem updateSettings_arguments
  (settings : Settings) (host : Host) (r : Runner) :
  runArguments_ (stateOf (updateSettings settings host r))
  = (if checkUnused settings then []
     else [("-j " ++ Qt.number (idealThreadCount host))%string])
    ++ [("--enable=warning,style,performance,portability,information,missingInclude"
         ++ (if checkUnused settings then ",unusedFunction" else ""))%string]
    ++ (if checkInconclusive settings then ["--inconclusive"] else [])
    ++ ["--template={file},{line},{severity},{id},{message}"].
Proof.
  rewrite updateSettings_run. destruct r; reflexivity.
Qed.

(** X13: [updateSettings] is idempotent and has no effect on the
    collaborators: a second call with the same settings leaves the runner
    as the first one left it. *)
Theorem updateSettings_idempotent
  (settings : Settings) (host : Host) (r : Runner) :
  updateSettings settings host (stateOf (updateSettings settings host r))
  = (tt, stateOf (updateSettings settings host r), []).
Proof.
  rewrite !updateSettings_run. destruct r; reflexivity.
Qed.

(** X14: [setIncludePaths] touches nothing but the include flags: it has
    no effect on the collaborators, and what it stores gives the paths back
    when the first two characters of each flag are cut off. *)
Theorem setIncludePaths_round_trip (paths : list string) (r : Runner) :
  let out := setIncludePaths paths r in
  logOf out = [] /\
  stateOf out = set_includePaths (includePaths_ (stateOf out)) r /\
  map (fun i => Qt.mid i 2 (-1)) (includePaths_ (stateOf out)) = paths.
Proof.
  cbv zeta. rewrite setIncludePaths_run.
  split; [reflexivity|]. split; [destruct r; reflexivity|].
  destruct r; simpl. induction paths as [|p paths IH]; [reflexivity|].
  cbn [map]. rewrite IH. f_equal. apply strip_include_flag.
Qed.

(** ** Splitting and joining *)

Lemma join_split (sep : ascii) (s : string) :
  Qt.join (String sep EmptyString) (Qt.split sep s) = s.
Proof.
  unfold Qt.join. induction s as [|c s IH]; [reflexivity|].
  cbn [Qt.split]. destruct (Ascii.eqb_spec c sep) as [->|Hne].
  - destruct (Qt.split sep s) as [|h t] eqn:E.
    + now destruct (split_nonempty sep s).
    + cbn [String.concat]. cbn [String.concat] in IH. rewrite IH.
      reflexivity.
  - destruct (Qt.split sep s) as [|h t] eqn:E.
    + now destruct (split_nonempty sep s).
    + cbn [String.concat] in *. destruct t as [|h' t].
      * now rewrite IH.
      * rewrite <- IH. reflexivity.
Qed.

Lemma split_fields_without_separator (sep : ascii) (s : string) :
  forall f, In f (Qt.split sep s) -> ~ In sep (list_ascii_of_string f).
Proof.
  induction s as [|c s IH]; intros f Hf; cbn [Qt.split] in Hf.
  - destruct Hf as [<-|[]]. simpl. tauto.
  - destruct (Ascii.eqb_spec c sep) as [->|Hne].
    + destruct Hf as [<-|Hf]; [simpl; tauto | now apply IH].
    + destruct (Qt.split sep s) as [|h t] eqn:E.
      * destruct Hf as [<-|[]]. simpl. intuition.
      * destruct Hf as [<-|Hf].
        -- simpl. intros [H|H]; [congruence|].
           apply (IH h); simpl; auto.
        -- apply IH. simpl; auto.
Qed.

(** X15: the ignore patterns of the options page survive being applied and
    shown again: the text of the field, split at the commas by
    [applySettings] and joined by commas by [initInterface], is the text
    that was typed.  No stored pattern holds a comma, and there is always at
    least one pattern: the empty text is stored as one empty pattern. *)
Theorem ignore_patterns_round_trip (text : string) :
  ignoreTextOfPatterns (ignorePatternsOfText text) = text /\
  ignorePatternsOfText text <> [] /\
  forall pattern, In pattern (ignorePatternsOfText text) ->
                  ~ In ","%char (list_ascii_of_string pattern).
Proof.
  unfold ignoreTextOfPatterns, ignorePatternsOfText.
  split; [apply (join_split "," text)|].
  split; [apply split_nonempty | apply split_fields_without_separator].
Qed.

(** ** More on the records of the error stream *)

Lemma mid_from_start (s : string) : Qt.mid s 0 (-1) = s.
Proof. apply (mid_to_end EmptyString s). Qed.

Lemma parse_five_fields
  (onWindows shown : bool) (line f1 f2 f3' f4 f5 : string) (c : ascii)
  (more : list string) :
  Qt.split "," line = f1 :: f2 :: String c f3' :: f4 :: f5 :: more ->
  parseErrorLine onWindows shown line
  = Finding c (if shown then f4 else EmptyString)
      (Qt.mid line (Qt.indexOf line f5) (-1))
      (Qt.fromNativeSeparators onWindows f1) (Qt.toInt f2).
Proof.
  intros H. unfold parseErrorLine. rewrite H. reflexivity.
Qed.

Lemma readError_one_finding
  (host : Host) (r : Runner) (rawLine : string)
  (type : ascii) (id description file : string) (lineNumber : Z) :
  parseErrorLine (windows host) (showId_ r) (Qt.trimmed rawLine)
  = Finding type id description file lineNumber ->
  Qt.isEmpty (Qt.trimmed rawLine) = false ->
  logOf (readError host [rawLine] r)
  = (if showOutput_ r then [MessageWrite (Qt.trimmed rawLine) Silent] else [])
    ++ [NewTask type id description file lineNumber].
Proof.
  intros Hp Hne. simpl readError. rewrite Hne.
  unfold bind, get, when, emit, ret, logOf. rewrite Hp.
  destruct (showOutput_ r); reflexivity.
Qed.

Lemma five_fields_not_empty (line : string) (a b c d e : string)
  (more : list string) :
  Qt.split "," line = a :: b :: c :: d :: e :: more ->
  Qt.isEmpty line = false.
Proof. destruct line; [discriminate | reflexivity]. Qed.

(** X16: the description of a finding starts at the first place where the
    text of the fifth field occurs in the line, which can be before the fifth
    field.  When that text starts the line (an empty message does) the
    description is the whole line, file, line number, severity and id
    included. *)
Theorem description_is_whole_line
  (host : Host) (r : Runner) (rawLine : string)
  (f1 f2 f3' f4 f5 : string) (c : ascii) (more : list string) :
  Qt.split "," (Qt.trimmed rawLine)
  = f1 :: f2 :: String c f3' :: f4 :: f5 :: more ->
  String.prefix f5 (Qt.trimmed rawLine) = true ->
  logOf (readError host [rawLine] r)
  = (if showOutput_ r then [MessageWrite (Qt.trimmed rawLine) Silent] else [])
    ++ [NewTask c (if showId_ r then f4 else EmptyString)
          (Qt.trimmed rawLine)
          (Qt.fromNativeSeparators (windows host) f1) (Qt.toInt f2)].
Proof.
  intros Hsplit Hpre.
  apply readError_one_finding;
    [|eapply five_fields_not_empty; eassumption].
  rewrite (parse_five_fields _ _ _ _ _ _ _ _ _ _ Hsplit).
  unfold Qt.indexOf. rewrite (index_at_prefix _ _ Hpre).
  now rewrite mid_from_start.
Qed.

Lemma prefix_substring (t pre suf : string) :
  String.prefix t suf = true ->
  String.substring (String.length pre) (String.length t) (pre ++ suf) = t.
Proof.
  intros H. apply String.prefix_correct in H.
  induction pre as [|a pre IH]; simpl; assumption.
Qed.

Lemma join_cons (sep x : string) (l : list string) :
  l <> [] -> Qt.join sep (x :: l) = (x ++ sep ++ Qt.join sep l)%string.
Proof. unfold Qt.join. destruct l; [congruence | reflexivity]. Qed.

Lemma append_assoc (a b c : string) :
  ((a ++ b) ++ c)%string = (a ++ (b ++ c))%string.
Proof. induction a as [|x a IH]; simpl; [reflexivity | now rewrite IH]. Qed.

Lemma join_app (sep : string) (a b : list string) :
  a <> [] -> b <> [] ->
  Qt.join sep (a ++ b) = (Qt.join sep a ++ sep ++ Qt.join sep b)%string.
Proof.
  intros Ha Hb. induction a as [|x a IH]; [congruence|].
  destruct a as [|y a].
  - cbn [app]. rewrite join_cons by assumption. reflexivity.
  - change ((x :: y :: a) ++ b) with (x :: ((y :: a) ++ b)).
    rewrite join_cons by discriminate.
    rewrite IH by discriminate.
    rewrite (join_cons sep x (y :: a)) by discriminate.
    now rewrite !append_assoc.
Qed.

Lemma prefix_of_join (sep x : string) (l : list string) :
  String.prefix x (Qt.join sep (x :: l)) = true.
Proof.
  destruct l as [|y l].
  - unfold Qt.join. cbn [String.concat].
    induction x as [|a x IH]; simpl; [reflexivity|].
    destruct (ascii_dec a a); [exact IH | congruence].
  - rewrite join_cons by discriminate. apply prefix_append.
Qed.

(** X17: when the text of the fifth field does not occur in the line before
    the fifth field, the description is the rest of the record: the fifth
    field and every field after it, with the commas between them. *)
Theorem description_keeps_commas
  (host : Host) (r : Runner) (rawLine : string)
  (f1 f2 f3' f4 f5 : string) (c : ascii) (more : list string) :
  Qt.split "," (Qt.trimmed rawLine)
  = f1 :: f2 :: String c f3' :: f4 :: f5 :: more ->
  (forall p,
      (p <= String.length (Qt.join "," [f1; f2; String c f3'; f4]))%nat ->
      String.substring p (String.length f5) (Qt.trimmed rawLine) <> f5) ->
  logOf (readError host [rawLine] r)
  = (if showOutput_ r then [MessageWrite (Qt.trimmed rawLine) Silent] else [])
    ++ [NewTask c (if showId_ r then f4 else EmptyString)
          (Qt.join "," (f5 :: more))
          (Qt.fromNativeSeparators (windows host) f1) (Qt.toInt f2)].
Proof.
  intros Hsplit Hfirst.
  apply readError_one_finding;
    [|eapply five_fields_not_empty; eassumption].
  rewrite (parse_five_fields _ _ _ _ _ _ _ _ _ _ Hsplit). f_equal.
  set (line := Qt.trimmed rawLine) in *.
  set (head := (Qt.join "," [f1; f2; String c f3'; f4] ++ ",")%string).
  set (rest := Qt.join "," (f5 :: more)).
  assert (Hline : line = (head ++ rest)%string).
  { rewrite <- (join_split "," line), Hsplit.
    change (f1 :: f2 :: String c f3' :: f4 :: f5 :: more)
      with ([f1; f2; String c f3'; f4] ++ f5 :: more).
    rewrite join_app by discriminate.
    unfold head, rest. now rewrite append_assoc. }
  assert (Hhead : String.length head
                  = S (String.length (Qt.join "," [f1; f2; String c f3'; f4]))).
  { unfold head. rewrite length_append. simpl. lia. }
  assert (Hat : String.substring (String.length head) (String.length f5) line
                = f5).
  { rewrite Hline. apply prefix_substring, prefix_of_join. }
  destruct (split_fields_occur "," line _ _ Hsplit) as [_ Hocc].
  destruct (Hocc f5) as (pre & post & Hocc5); [simpl; auto|].
  destruct (index_of_occurrence f5 pre post) as [i Hi].
  rewrite <- Hocc5 in Hi.
  assert (Hi_eq : i = String.length head).
  { pose proof (String.index_correct1 0 i f5 line Hi) as Hfound.
    pose proof (String.index_correct2 0 i f5 line Hi) as Hnone.
    destruct (Nat.lt_trichotomy i (String.length head)) as [Hlt|[Heq|Hgt]].
    - exfalso. apply (Hfirst i); [lia | exact Hfound].
    - exact Heq.
    - exfalso. apply (Hnone (String.length head)); [lia | lia | exact Hat]. }
  unfold Qt.indexOf. rewrite Hi, Hi_eq, Hline.
  apply (mid_to_end head rest).
Qed.



(** ** The progress lines of the output stream *)

Lemma get_not_member (c : ascii) (s : string) :
  ~ In c (list_ascii_of_string s) -> forall k, String.get k s <> Some c.
Proof.
  induction s as [|a s IH]; intros Hn k; simpl.
  - destruct k; discriminate.
  - simpl in Hn. destruct k as [|k].
    + intros E. inversion E. tauto.
    + apply IH. tauto.
Qed.

Lemma get_append_right (pre s : string) (k : nat) :
  String.get (String.length pre + k) (pre ++ s) = String.get k s.
Proof.
  rewrite Nat.add_comm. symmetry. apply String.append_correct2.
Qed.

(** The scan finds the space that ends [pre] when nothing after it, up to
    the start of the scan, is a space. *)
Lemma scanBack_finds (pre tail : string) :
  forall n,
    (forall k, (k < n)%nat -> String.get k tail <> Some " "%char) ->
    Qt.scanBack (pre ++ String " " tail) " " (String.length pre + n)
    = Z.of_nat (String.length pre).
Proof.
  induction n as [|n IH]; intros Hfree.
  - rewrite Nat.add_0_r. destruct pre as [|a pre]; simpl.
    + reflexivity.
    + replace (String.length pre) with (String.length pre + 0)%nat at 1 by lia.
      rewrite get_append_right. simpl. reflexivity.
  - rewrite Nat.add_succ_r. cbn [Qt.scanBack].
    replace (S (String.length pre + n)) with (String.length pre + S n)%nat
      by lia.
    rewrite get_append_right. cbn [String.get].
    destruct (String.get n tail) as [x|] eqn:E.
    + destruct (Ascii.eqb_spec x " "%char) as [->|Hx].
      * destruct (Hfree n); [lia | exact E].
      * apply IH. intros k Hk. apply Hfree. lia.
    + apply IH. intros k Hk. apply Hfree. lia.
Qed.

Lemma substring_prefix_part (a b : string) :
  String.substring 0 (String.length a) (a ++ b) = a.
Proof.
  induction a as [|x a IH]; simpl; [now destruct b | now rewrite IH].
Qed.

Lemma substring_middle (pre a b : string) :
  String.substring (String.length pre) (String.length a) (pre ++ a ++ b) = a.
Proof.
  induction pre as [|x pre IH]; simpl; [apply substring_prefix_part | exact IH].
Qed.

Lemma mid_middle (pre a b : string) :
  a <> EmptyString ->
  Qt.mid (pre ++ a ++ b) (Qt.size pre) (Qt.size a) = a.
Proof.
  intros Ha. unfold Qt.mid, Qt.size. rewrite !length_append.
  destruct (Z.ltb_spec
              (Z.of_nat (String.length pre
                         + (String.length a + String.length b)))
              (Z.of_nat (String.length pre))); [lia|].
  destruct (Z.ltb_spec (Z.of_nat (String.length pre)) 0); [lia|].
  destruct (Z.ltb_spec (Z.of_nat (String.length a)) 0); [lia|].
  cbn [orb].
  destruct (Z.ltb_spec
              (Z.of_nat (String.length pre
                         + (String.length a + String.length b))
               - Z.of_nat (String.length pre))
              (Z.of_nat (String.length a))); [lia|].
  rewrite !Nat2Z.id. apply substring_middle.
Qed.

Lemma endsWith_append (a suffix : string) :
  Qt.endsWith (a ++ suffix) suffix = true.
Proof.
  unfold Qt.endsWith. rewrite length_append.
  apply andb_true_iff. split; [apply Nat.leb_le; lia|].
  replace (String.length a + String.length suffix - String.length suffix)%nat
    with (String.length a) by lia.
  rewrite substring_suffix. apply String.eqb_refl.
Qed.

Lemma progressOf_number (pre num : string) :
  ~ In " "%char (list_ascii_of_string num) ->
  progressOf (pre ++ " " ++ num ++ progressSample) = Qt.toInt num.
Proof.
  intros Hnum. unfold progressOf.
  set (line := (pre ++ " " ++ num ++ progressSample)%string).
  assert (Hlen : Qt.size line - Qt.size progressSample
                 = Z.of_nat (String.length pre + S (String.length num))).
  { unfold line, Qt.size. rewrite !length_append. simpl. lia. }
  rewrite Hlen.
  assert (Hscan : Qt.lastIndexOfChar line " "
                    (Z.of_nat (String.length pre + S (String.length num)))
                  = Z.of_nat (String.length pre)).
  { unfold Qt.lastIndexOfChar, Qt.size. cbv zeta.
    assert (Hl : String.length line
                 = (String.length pre + S (String.length num) + 6)%nat).
    { unfold line. rewrite !length_append. simpl. lia. }
    assert (E1 : (Z.of_nat (String.length pre + S (String.length num)) <? 0)
                 = false) by (apply Z.ltb_ge; lia).
    assert (E2 : (Z.of_nat (String.length line)
                  <=? Z.of_nat (String.length pre + S (String.length num)))
                 = false) by (apply Z.leb_gt; lia).
    rewrite E1. cbv beta iota. rewrite E1, E2.
    cbn [orb]. rewrite Nat2Z.id.
    apply (scanBack_finds pre (num ++ progressSample)).
    intros k Hk.
    destruct (Nat.lt_ge_cases k (String.length num)) as [Hlt|Hge].
    - rewrite <- (String.append_correct1 num progressSample k Hlt).
      now apply get_not_member.
    - replace k with (String.length num + 0)%nat by lia.
      rewrite get_append_right. simpl. discriminate. }
  rewrite Hscan.
  replace (Z.of_nat (String.length pre + S (String.length num))
           - Z.of_nat (String.length pre))
    with (Qt.size (String " " num)) by (unfold Qt.size; simpl; lia).
  change (Z.of_nat (String.length pre)) with (Qt.size pre).
  unfold line.
  change ((pre ++ " " ++ num ++ progressSample)%string)
    with ((pre ++ String " " num ++ progressSample)%string).
  rewrite mid_middle by discriminate.
  reflexivity.
Qed.

(** X19: a line of the output stream that ends with a space, a number and
    ["% done"] sets the progress handle to that number and is written to
    the message pane, when the output is shown and a handle exists. *)
Theorem progress_line_sets_value
  (r : Runner) (rawLine pre num : string) :
  Qt.trimmed rawLine = (pre ++ " " ++ num ++ progressSample)%string ->
  ~ In " "%char (list_ascii_of_string num) ->
  showOutput_ r = true ->
  futureInterface_ r = true ->
  readOutput r [rawLine]
  = [SetProgressValue (Qt.toInt num);
     WriteMessage (Qt.trimmed rawLine) Silent].
Proof.
  intros Hline Hnum Hshow Hfuture.
  unfold readOutput. rewrite Hshow. cbn [negb readOutputLines].
  rewrite Hline.
  assert (Hne : Qt.isEmpty (pre ++ " " ++ num ++ progressSample) = false)
    by now destruct pre.
  rewrite Hne, Hfuture.
  replace (Qt.endsWith (pre ++ " " ++ num ++ progressSample) progressSample)
    with true.
  - cbn [andb app]. now rewrite progressOf_number.
  - symmetry.
    replace ((pre ++ " " ++ num ++ progressSample)%string)
      with (((pre ++ " " ++ num) ++ progressSample)%string)
      by now rewrite !append_assoc.
    apply endsWith_append.
Qed.

(** X20: the progress handle is set only from a line that ends with
    ["% done"], and only when the output of the binary is shown and a handle
    exists: with the output hidden [readOutput] reads nothing. *)
Theorem progress_needs_shown_output
  (r : Runner) (rawLines : list string) (done : Z) :
  In (SetProgressValue done) (readOutput r rawLines) ->
  showOutput_ r = true /\
  futureInterface_ r = true /\
  exists rawLine,
    In rawLine rawLines /\
    Qt.endsWith (Qt.trimmed rawLine) progressSample = true /\
    done = progressOf (Qt.trimmed rawLine).
Proof.
  unfold readOutput. destruct (showOutput_ r); [|intros []].
  cbn [negb]. intros H. split; [reflexivity|].
  induction rawLines as [|raw rest IH]; [destruct H|].
  cbn [readOutputLines] in H.
  destruct (Qt.isEmpty (Qt.trimmed raw)).
  - destruct (IH H) as (Hf & x & Hx & He & Hd).
    split; [assumption|]. exists x. simpl; auto.
  - apply in_app_or in H. destruct H as [H|[H|H]].
    + destruct (Qt.endsWith (Qt.trimmed raw) progressSample) eqn:E;
        [|destruct H].
      destruct (futureInterface_ r) eqn:F; [|destruct H].
      destruct H as [H|[]]. inversion H; subst.
      split; [reflexivity|]. exists raw. simpl; auto.
    + discriminate.
    + destruct (IH H) as (Hf & x & Hx & He & Hd).
      split; [assumption|]. exists x. simpl; auto.
Qed.

(** ** More on the help text *)

Lemma indexOf_found (s t : string) (i : Z) :
  0 <= i -> Qt.indexOf s t = i ->
  String.index 0 t s = Some (Z.to_nat i).
Proof.
  unfold Qt.indexOf. intros Hi H.
  destruct (String.index 0 t s) as [n|]; [|lia].
  subst i. now rewrite Nat2Z.id.
Qed.

Lemma indexOf_lower_bound (s t : string) : -1 <= Qt.indexOf s t.
Proof. unfold Qt.indexOf. destruct (String.index 0 t s); lia. Qed.

Lemma append_split (b1 : string) :
  forall s1 b2 s2,
    (b1 ++ s1)%string = (b2 ++ s2)%string ->
    (String.length b1 <= String.length b2)%nat ->
    exists m, b2 = (b1 ++ m)%string /\ s1 = (m ++ s2)%string.
Proof.
  induction b1 as [|x b1 IH]; intros s1 b2 s2 H Hlen.
  - exists b2. simpl in *. auto.
  - destruct b2 as [|y b2]; [simpl in Hlen; lia|].
    simpl in H. inversion H; subst.
    destruct (IH s1 b2 s2) as (m & -> & ->); [assumption | simpl in Hlen; lia|].
    exists m. auto.
Qed.

Lemma prefix_split (t s : string) :
  String.prefix t s = true -> exists post, s = (t ++ post)%string.
Proof.
  revert s. induction t as [|a t IH]; intros s H.
  - exists s. reflexivity.
  - destruct s as [|b s]; [discriminate|]. simpl in H.
    destruct (ascii_dec a b) as [->|]; [|discriminate].
    destruct (IH s H) as [post ->]. exists post. reflexivity.
Qed.

(** A text that starts with ["Options:"], cut before a later
    ["Example usage:"], still starts with ["Options:"]. *)
Lemma options_marker_kept (shown after : string) :
  shown <> EmptyString ->
  String.prefix "Options:" (shown ++ after) = true ->
  String.prefix "Example usage:" after = true ->
  String.prefix "Options:" shown = true.
Proof.
  intros Hne Ho He.
  destruct (prefix_split _ _ He) as [post ->].
  destruct (prefix_split _ _ Ho) as [post' Hs].
  do 8 (destruct shown as [|? shown];
        [ first [congruence | simpl in Hs; inversion Hs] | ]).
  simpl in Hs. inversion Hs; subst.
  apply (prefix_append "Options:" shown).
Qed.

(** X21: when ["Options:"] is found in the help output and
    ["Example usage:"] is first found after it, the editor shows the text
    that starts with the first ["Options:"] and stops just before the first
    ["Example usage:"]. *)
Theorem help_text_between_markers
  (processArguments : list string) (output : string) :
  Qt.contains processArguments OptionsWidget.helpArg = true ->
  0 <= Qt.indexOf (Qt.trimmed output) "Options:"
    < Qt.indexOf (Qt.trimmed output) "Example usage:" ->
  exists before shown after,
    Qt.trimmed output = (before ++ shown ++ after)%string /\
    Qt.size before = Qt.indexOf (Qt.trimmed output) "Options:" /\
    Qt.size before + Qt.size shown
    = Qt.indexOf (Qt.trimmed output) "Example usage:" /\
    OptionsWidget.finished processArguments output = Some shown /\
    String.prefix "Options:" shown = true /\
    String.prefix "Example usage:" after = true.
Proof.
  intros Hhelp [Hi Hij].
  set (o := Qt.trimmed output) in *.
  pose proof (indexOf_found o "Options:" _ Hi eq_refl) as Hio.
  assert (Hj : 0 <= Qt.indexOf o "Example usage:") by lia.
  pose proof (indexOf_found o "Example usage:" _ Hj eq_refl) as Hjo.
  destruct (index_splits _ _ _ Hio) as (b1 & s1 & Ho1 & Hl1 & Hp1).
  destruct (index_splits _ _ _ Hjo) as (b2 & s2 & Ho2 & Hl2 & Hp2).
  destruct (append_split b1 s1 b2 s2) as (shown & Hb2 & Hs1);
    [congruence | lia |].
  assert (Hshown : shown <> EmptyString).
  { intros ->. subst b2.
    assert (String.length (b1 ++ "") = String.length b1)
      by (rewrite length_append; simpl; lia).
    lia. }
  exists b1, shown, s2.
  assert (Hsize : Qt.size b1 = Qt.indexOf o "Options:")
    by (unfold Qt.size; lia).
  assert (Hend : Qt.size b1 + Qt.size shown
                 = Qt.indexOf o "Example usage:").
  { subst b2. rewrite length_append in Hl2. unfold Qt.size in *. lia. }
  split; [rewrite Ho1, Hs1; reflexivity|].
  split; [exact Hsize|].
  split; [exact Hend|].
  split.
  - unfold OptionsWidget.finished. fold o. rewrite Hhelp.
    destruct (Z.leb_spec (Qt.indexOf o "Example usage:")
                         (Qt.indexOf o "Options:")); [lia|].
    f_equal. rewrite <- Hsize.
    replace (Qt.indexOf o "Example usage:" - Qt.size b1) with (Qt.size shown).
    + rewrite Ho1, Hs1. now apply mid_middle.
    + subst b2. rewrite length_append in Hl2. unfold Qt.size in *. lia.
  - split; [|exact Hp2].
    apply (options_marker_kept shown s2); [assumption | | assumption].
    now rewrite <- Hs1.
Qed.

(** X22: when ["Example usage:"] does not occur in the help output, no
    editor is shown, whether ["Options:"] occurs or not. *)
Theorem help_hidden_without_example_marker
  (processArguments : list string) (output : string) :
  (forall pre post,
      Qt.trimmed output <> (pre ++ "Example usage:" ++ post)%string) ->
  OptionsWidget.finished processArguments output = None.
Proof.
  intros Habsent. unfold OptionsWidget.finished.
  destruct (Qt.contains processArguments OptionsWidget.helpArg);
    [|reflexivity].
  assert (Hend : Qt.indexOf (Qt.trimmed output) "Example usage:" = -1).
  { unfold Qt.indexOf.
    destruct (String.index 0 "Example usage:" (Qt.trimmed output))
      as [j|] eqn:E; [|reflexivity].
    destruct (index_splits _ _ _ E) as (pre & suf & Ho & _ & Hp).
    destruct (prefix_split _ _ Hp) as [post ->].
    now destruct (Habsent pre post). }
  rewrite Hend.
  pose proof (indexOf_lower_bound (Qt.trimmed output) "Options:").
  destruct (Z.leb_spec (-1) (Qt.indexOf (Qt.trimmed output) "Options:"));
    [reflexivity | lia].
Qed.

(** ** The signals of the process *)

(** X23: after the [finished] signal the process slot is open exactly when
    a run has been started from the queue: either one process is started and
    the slot is open, or nothing is started and the slot is closed. *)
Theorem finish_opens_only_for_a_run
  (r : Runner) (exitCode : Z) (settings : Settings) (host : Host) :
  let out := onFinished exitCode settings host r in
  (processOpen (stateOf out) = true /\
   exists arguments,
     starts (logOf out) = [ProcessStart (binaryFile settings) arguments])
  \/
  (processOpen (stateOf out) = false /\ starts (logOf out) = []).
Proof.
  destruct r as [so si ra ip q cur flc flf ilf mx po pr qt fi].
  unfold onFinished, finished, processClose. run_checkQueuedFiles.
  destruct fi, so; simpl;
    (destruct (Qt.listIsEmpty q); simpl; [right; auto|]);
    (destruct (Qt.isEmpty (binaryFile settings)); simpl; [right; auto|]);
    (destruct (mx <=? _); simpl;
     [ destruct (Qt.stringListEqb flc q); simpl;
       [ | destruct (fileListOpens host); simpl;
           [destruct (includeListOpens host); simpl|] ] | ]);
    first [ right; split; reflexivity
          | left; split; [reflexivity | eexists; reflexivity] ].
Qed.

(** X24: an error of the process other than a failed start changes no
    field of the runner; all it does is the line in the message pane when
    the output is shown. *)
Theorem other_errors_change_nothing (e : ProcessError) (r : Runner) :
  e <> FailedToStart ->
  stateOf (onErrorOccurred e r) = r /\
  logOf (onErrorOccurred e r)
  = if showOutput_ r then [MessageWrite "Cppcheck error occured" Silent]
    else [].
Proof.
  intros He.
  destruct r as [so si ra ip q cur flc flf ilf mx po pr qt fi].
  unfold onErrorOccurred, error, when, bind, get, modify, emit, ret,
    stateOf, logOf; simpl.
  destruct e; try congruence; destruct so; simpl; auto.
Qed.

(** ** The length of the command line *)

Lemma join_app_size (a b : list string) :
  Qt.size (Qt.join " " (a ++ b))
  <= Qt.size (Qt.join " " a) + Qt.size (Qt.join " " b) + 1.
Proof.
  destruct a as [|x a].
  - simpl. pose proof (size_nonneg (Qt.join " " [])).
    pose proof (size_nonneg (Qt.join " " b)). lia.
  - destruct b as [|y b].
    + rewrite app_nil_r. pose proof (size_nonneg (Qt.join " " [])). lia.
    + rewrite join_app by discriminate.
      unfold Qt.size. rewrite !length_append. simpl. lia.
Qed.

(** X28: a dispatch below the ceiling passes a command line (the arguments
    joined by spaces, the binary not counted) shorter than the ceiling plus
    two: the test adds the lengths of the three groups of arguments and
    leaves out the two spaces between the groups. *)
Theorem inline_command_line_bound
  (r : Runner) (settings : Settings) (host : Host) :
  Qt.size (Qt.join " " (dispatchArguments settings host r))
  + Qt.size (Qt.join " " (dispatchIncludes settings r))
  + Qt.size (Qt.join " " (fileCheckQueue_ r)) < 2 ^ 31 ->
  spills settings host r = false ->
  Qt.size
    (Qt.join " "
       (dispatchArguments settings host r ++ fileCheckQueue_ r
        ++ dispatchIncludes settings r))
  < maxArgumentsLength_ r + 2.
Proof.
  intros Hsmall Hspill. unfold spills in Hspill.
  rewrite serializedLength_exact in Hspill by assumption.
  apply Z.leb_gt in Hspill.
  pose proof (join_app_size (dispatchArguments settings host r)
                (fileCheckQueue_ r ++ dispatchIncludes settings r)).
  pose proof (join_app_size (fileCheckQueue_ r)
                (dispatchIncludes settings r)).
  lia.
Qed.

(** ** The theorems at concrete runs *)

Lemma no_binary_keeps_queue_witness :
  Qt.isEmpty (binaryFile Sample.unset) = true /\
  fileCheckQueue_ Sample.requestedA = ["a.cpp"] /\
  announced
    (logOf (checkQueuedFiles Scenario.settings Scenario.host
              (stateOf (checkQueuedFiles Sample.unset Scenario.host
                          Sample.requestedA))))
  = [StartedChecking ["a.cpp"]].
Proof.
  split; [reflexivity|]. split; [reflexivity|].
  destruct (no_binary_keeps_queue Sample.requestedA Sample.unset
              Scenario.settings Scenario.host) as (_ & _ & H);
    [ reflexivity | reflexivity | discriminate | reflexivity | reflexivity
    | reflexivity | exact H ].
Defined.

Lemma checkQueuedFiles_consumes_queue_witness :
  Qt.isEmpty (binaryFile Scenario.settings) = false /\
  fileCheckQueue_
    (stateOf (checkQueuedFiles Scenario.settings Scenario.hostNoTemp
                Sample.requestedA))
  = [].
Proof.
  split; [reflexivity|].
  destruct (checkQueuedFiles_consumes_queue Sample.requestedA
              Scenario.settings Scenario.hostNoTemp) as [H _];
    [reflexivity | exact H].
Defined.

Lemma trigger_while_running_drops_queue_witness :
  processRunning Scenario.checkingA_queuedB = true /\
  fileCheckQueue_ Scenario.checkingA_queuedB = ["b.cpp"] /\
  starts (logOf (checkQueuedFiles Scenario.settings Scenario.host
                   Scenario.checkingA_queuedB))
  = [].
Proof.
  split; [reflexivity|]. split; [reflexivity|].
  destruct (trigger_while_running_drops_queue Scenario.checkingA_queuedB
              Scenario.settings Scenario.host) as (_ & H & _);
    [ discriminate | reflexivity | reflexivity | reflexivity | reflexivity
    | exact H ].
Defined.

Lemma two_requests_one_run_witness :
  processOpen Scenario.fresh = false /\
  logOf
    (onTimeout Scenario.settings Scenario.host
       (stateOf
          (onTimeout Scenario.settings Scenario.host
             (stateOf
                (checkFiles ["a.cpp"]
                   (stateOf (checkFiles ["b.cpp"] Scenario.fresh)))))))
  = [].
Proof.
  split; [reflexivity|].
  destruct (two_requests_one_run Scenario.fresh ["b.cpp"] ["a.cpp"]
              Scenario.settings Scenario.host)
    as (_ & _ & _ & _ & _ & H);
    [ discriminate | reflexivity | reflexivity | reflexivity | reflexivity
    | reflexivity | reflexivity | exact H ].
Defined.

Lemma request_while_running_waits_for_finish_witness :
  processOpen Scenario.checkingA = true /\
  Qt.sort (Qt.removeDuplicates (fileCheckQueue_ Scenario.checkingA ++ ["b.cpp"]))
  <> currentlyCheckingFiles_ Scenario.checkingA /\
  logOf (checkFiles ["b.cpp"] Scenario.checkingA) = [].
Proof.
  split; [reflexivity|]. split; [vm_compute; discriminate|].
  destruct (request_while_running_waits_for_finish Scenario.checkingA
              ["b.cpp"] Scenario.settings Scenario.host 0) as [H _];
    [ discriminate | reflexivity | vm_compute; discriminate | reflexivity
    | reflexivity | reflexivity | exact H ].
Defined.

Lemma stop_cancels_pending_request_witness :
  processOpen Sample.requestedA = false /\
  fileCheckQueue_ Sample.requestedA = ["a.cpp"] /\
  fileCheckQueue_ (stateOf (stopChecking Sample.requestedA)) = [].
Proof.
  split; [reflexivity|]. split; [reflexivity|].
  destruct (stop_cancels_pending_request Sample.requestedA Scenario.settings
              Scenario.host) as (_ & H & _);
    [reflexivity | exact H].
Defined.

Lemma ceiling_bounds_witness :
  reachable Sample.verboseStarted /\
  32000 <= maxArgumentsLength_ Sample.verboseStarted <= Qt.INT_MAX.
Proof.
  assert (H : reachable Sample.verboseStarted)
    by (unfold Sample.verboseStarted, Sample.verboseChecking,
          Sample.verboseRequested, Sample.verboseFresh;
        repeat apply reachable_step; apply reachable_new).
  split; [exact H | exact (ceiling_bounds _ H)].
Defined.

Lemma file_sets_sorted_witness :
  reachable Sample.verboseStarted /\
  Sorted sortedBefore (currentlyCheckingFiles_ Sample.verboseStarted).
Proof.
  assert (H : reachable Sample.verboseStarted)
    by (unfold Sample.verboseStarted, Sample.verboseChecking,
          Sample.verboseRequested, Sample.verboseFresh;
        repeat apply reachable_step; apply reachable_new).
  split; [exact H|].
  destruct (file_sets_sorted _ H) as (_ & (Hs & _) & _). exact Hs.
Defined.

Lemma include_flags_strip_witness :
  reachable
    (stateOf (handle Scenario.settings Scenario.host
                (CallSetIncludePaths ["/opt/sdk/include"; "include"])
                (newRunner None))) /\
  map (fun i => Qt.mid i 2 (-1))
      (includePaths_
         (stateOf (handle Scenario.settings Scenario.host
                     (CallSetIncludePaths ["/opt/sdk/include"; "include"])
                     (newRunner None))))
  = ["/opt/sdk/include"; "include"].
Proof.
  assert (H : reachable
    (stateOf (handle Scenario.settings Scenario.host
                (CallSetIncludePaths ["/opt/sdk/include"; "include"])
                (newRunner None))))
    by (apply reachable_step, reachable_new).
  split; [exact H|].
  pose proof (include_flags_strip _ H) as E.
  vm_compute in E |- *. reflexivity.
Defined.

Lemma description_is_whole_line_witness :
  Qt.split "," (Qt.trimmed "a.c,7,error,id,")
  = ["a.c"; "7"; "error"; "id"; ""] /\
  logOf (readError Scenario.host ["a.c,7,error,id,"] Scenario.fresh)
  = [NewTask "e" "id" "a.c,7,error,id," "a.c" 7].
Proof.
  split; [reflexivity|].
  exact (description_is_whole_line Scenario.host Scenario.fresh
           "a.c,7,error,id," "a.c" "7" "rror" "id" "" "e"%char []
           eq_refl eq_refl).
Defined.

Lemma description_keeps_commas_witness :
  Qt.split "," (Qt.trimmed "a.c,7,error,id,null, then 0")
  = ["a.c"; "7"; "error"; "id"; "null"; " then 0"] /\
  logOf (readError Scenario.host ["a.c,7,error,id,null, then 0"]
           Scenario.fresh)
  = [NewTask "e" "id" "null, then 0" "a.c" 7].
Proof.
  split; [reflexivity|].
  refine (description_keeps_commas Scenario.host Scenario.fresh
            "a.c,7,error,id,null, then 0" "a.c" "7" "rror" "id" "null"
            "e"%char [" then 0"] eq_refl _).
  intros p Hp.
  do 15 (destruct p as [|p]; [vm_compute; discriminate|]).
  vm_compute in Hp. lia.
Defined.

Lemma progress_line_sets_value_witness :
  showOutput_ Sample.verboseStarted = true /\
  futureInterface_ Sample.verboseStarted = true /\
  readOutput Sample.verboseStarted ["1/3 files checked 33% done
"]
  = [SetProgressValue 33; WriteMessage "1/3 files checked 33% done" Silent].
Proof.
  split; [reflexivity|]. split; [reflexivity|].
  refine (progress_line_sets_value Sample.verboseStarted
            "1/3 files checked 33% done
" "1/3 files checked" "33" eq_refl _ eq_refl eq_refl).
  simpl. intros [H|[H|[]]]; discriminate.
Defined.

Lemma progress_needs_shown_output_witness :
  In (SetProgressValue 33)
     (readOutput Sample.verboseStarted ["Checking a.cpp..."; "33% done"]) /\
  showOutput_ Sample.verboseStarted = true.
Proof.
  assert (H : In (SetProgressValue 33)
                 (readOutput Sample.verboseStarted
                    ["Checking a.cpp..."; "33% done"]))
    by (vm_compute; auto).
  split; [exact H|].
  destruct (progress_needs_shown_output _ _ _ H) as [Hs _]. exact Hs.
Defined.

Lemma help_text_between_markers_witness :
  Qt.indexOf (Qt.trimmed "Syntax: Options: -q quiet  Example usage: cppcheck .")
    "Options:" = 8 /\
  Qt.indexOf (Qt.trimmed "Syntax: Options: -q quiet  Example usage: cppcheck .")
    "Example usage:" = 27 /\
  exists shown,
    OptionsWidget.finished [OptionsWidget.helpArg]
      "Syntax: Options: -q quiet  Example usage: cppcheck ."
    = Some shown /\
    String.prefix "Options:" shown = true.
Proof.
  split; [reflexivity|]. split; [reflexivity|].
  destruct (help_text_between_markers [OptionsWidget.helpArg]
              "Syntax: Options: -q quiet  Example usage: cppcheck .")
    as (before & shown & after & _ & _ & _ & H & Hp & _);
    [reflexivity | vm_compute; split; [discriminate | reflexivity] |].
  exists shown. split; assumption.
Defined.

Lemma help_hidden_without_example_marker_witness :
  OptionsWidget.finished [OptionsWidget.helpArg] "Options: -q" = None.
Proof.
  apply help_hidden_without_example_marker.
  intros pre post H. apply (f_equal String.length) in H.
  rewrite !length_append in H. simpl in H. lia.
Defined.

Lemma other_errors_change_nothing_witness :
  Crashed <> FailedToStart /\
  stateOf (onErrorOccurred Crashed Scenario.checkingA) = Scenario.checkingA.
Proof.
  split; [discriminate|].
  destruct (other_errors_change_nothing Crashed Scenario.checkingA) as [H _];
    [discriminate | exact H].
Defined.

Lemma inline_below_ceiling_witness :
  spills Scenario.settings Scenario.host Sample.requestedA = false /\
  starts (logOf (checkQueuedFiles Scenario.settings Scenario.host
                   Sample.requestedA))
  = [ProcessStart "/usr/bin/cppcheck"
       ["--std=c++11";
        "--enable=warning,style,performance,portability,information,missingInclude,unusedFunction";
        "--template={file},{line},{severity},{id},{message}";
        "a.cpp"]].
Proof.
  split; [reflexivity|].
  destruct (inline_below_ceiling Sample.requestedA Scenario.settings
              Scenario.host) as [H _];
    [discriminate | reflexivity | reflexivity | reflexivity | exact H].
Defined.

Lemma spill_writes_both_lists_witness :
  spills Scenario.settings Scenario.host Scenario.bigRequested = true /\
  contents
    (includeListFile_
       (stateOf (checkQueuedFiles Scenario.settings Scenario.host
                   Scenario.bigRequested)))
  = "/opt/sdk/include".
Proof.
  split; [vm_compute; reflexivity|].
  destruct (spill_writes_both_lists Scenario.bigRequested Scenario.settings
              Scenario.host) as (_ & H & _);
    [ vm_compute; discriminate | reflexivity | reflexivity
    | vm_compute; reflexivity | vm_compute; discriminate | reflexivity
    | reflexivity | ].
  rewrite H. vm_compute. reflexivity.
Defined.

Lemma inline_command_line_bound_witness :
  spills Scenario.settings Scenario.host Sample.requestedA = false /\
  Qt.size
    (Qt.join " "
       (dispatchArguments Scenario.settings Scenario.host Sample.requestedA
        ++ fileCheckQueue_ Sample.requestedA
        ++ dispatchIncludes Scenario.settings Sample.requestedA))
  < maxArgumentsLength_ Sample.requestedA + 2.
Proof.
  split; [reflexivity|].
  apply inline_command_line_bound; [vm_compute; reflexivity | reflexivity].
Defined.

(** ** Kill and restart on an identical request *)







